(** * Silent Hill 2 (2024) save editor: container and field locators

    A shallow embedding of [sh2_save_editor.py] (class [SH2SaveEditor]) and
    the properties of its container locator ([load] / [save]) and of its
    field locator ([get_*] / [set_*]).

    Python values are modelled as follows.
    - [bytes] / [bytearray]: [list byte];
    - [int]: [Z] (offsets keep the sentinel [-1] of the source);
    - [float]: the primitive binary64 [float];
    - [str]: [string], read as a sequence of code points below 256;
    - a raised exception: the [Raise] case of [res];
    - [zlib]: parameters of a section. *)

From Stdlib Require Import String Ascii.
From Stdlib Require Import List ZArith Lia Bool.
From Stdlib Require Import Strings.Byte.
From Stdlib Require Import Floats.
From Stdlib Require Import DecimalString.
Import ListNotations.

Local Open Scope Z_scope.

(** ** Exceptions *)

Inductive exn : Set :=
| StructError     (* struct.error *)
| ZlibError       (* zlib.error *)
| OverflowError.  (* float too large to pack with f format *)

Inductive res (A : Type) : Type :=
| Ok (a : A)
| Raise (e : exn).

Arguments Ok {A} a.
Arguments Raise {A} e.

Definition bind {A B : Type} (m : res A) (k : A -> res B) : res B :=
  match m with
  | Ok a => k a
  | Raise e => Raise e
  end.

Notation "x <- m ;; k" := (bind m (fun x => k))
  (at level 61, m at next level, right associativity).

(** ** Python byte sequences *)

Module Py.

Definition bytes := list byte.

Definition len (b : bytes) : Z := Z.of_nat (length b).

(** Index normalisation of a slice bound ([PySlice_AdjustIndices], step 1):
    a negative bound counts from the end, and the result is clamped to
    [0 .. n]. *)
Definition adjust (n k : Z) : Z :=
  if k <? 0 then Z.max 0 (k + n) else Z.min k n.

(** [b[start:stop]] *)
Definition slice (b : bytes) (start stop : Z) : bytes :=
  let s := adjust (len b) start in
  let e := adjust (len b) stop in
  firstn (Z.to_nat (e - s)) (skipn (Z.to_nat s) b).

(** [b[:stop]] *)
Definition slice_to (b : bytes) (stop : Z) : bytes :=
  firstn (Z.to_nat (adjust (len b) stop)) b.

(** [b[start:stop] = v] on a bytearray: the slice is replaced by [v],
    whatever the two lengths are. *)
Definition set_slice (b : bytes) (start stop : Z) (v : bytes) : bytes :=
  let s := adjust (len b) start in
  let e := Z.max s (adjust (len b) stop) in
  firstn (Z.to_nat s) b ++ v ++ skipn (Z.to_nat e) b.

(** [sub] is a prefix of [b]. *)
Fixpoint starts_with (sub b : bytes) : bool :=
  match sub, b with
  | [], _ => true
  | _ :: _, [] => false
  | x :: sub', y :: b' => Byte.eqb x y && starts_with sub' b'
  end.

(** Lowest index at which [sub] occurs in [b]. *)
Fixpoint index_in (sub b : bytes) {struct b} : option nat :=
  if starts_with sub b then Some 0%nat
  else match b with
       | [] => None
       | _ :: b' => option_map S (index_in sub b')
       end.

(** [b.find(sub, start, stop)]: the lowest index at which [sub] occurs
    within [b[start:stop]], or [-1]. *)
Definition find_in (b sub : bytes) (start stop : Z) : Z :=
  let n := len b in
  let e := adjust n stop in
  let s := if start <? 0 then Z.max 0 (start + n) else start in
  if e - s <? len sub then -1
  else match index_in sub (firstn (Z.to_nat (e - s)) (skipn (Z.to_nat s) b)) with
       | Some k => s + Z.of_nat k
       | None => -1
       end.

(** [b.find(sub)] *)
Definition find (b sub : bytes) : Z := find_in b sub 0 (len b).

(** *** [str.encode()] (UTF-8) on code points below 256 *)

Definition byte_of_Z (z : Z) : byte :=
  match Byte.of_N (Z.to_N (z mod 256)) with
  | Some b => b
  | None => x00
  end.

Definition Z_of_byte (b : byte) : Z := Z.of_N (Byte.to_N b).

Definition code_point (c : ascii) : Z := Z.of_N (N_of_ascii c).

Definition encode_char (c : ascii) : bytes :=
  let n := code_point c in
  if n <? 128 then [byte_of_Z n]
  else [byte_of_Z (192 + n / 64); byte_of_Z (128 + n mod 64)].

Fixpoint encode (s : string) : bytes :=
  match s with
  | EmptyString => []
  | String c s' => encode_char c ++ encode s'
  end.

(** [len(s)] of a [str] *)
Definition str_len (s : string) : Z := Z.of_nat (String.length s).

Fixpoint is_ascii (s : string) : bool :=
  match s with
  | EmptyString => true
  | String c s' => (code_point c <? 128) && is_ascii s'
  end.

Fixpoint has_nul (s : string) : bool :=
  match s with
  | EmptyString => false
  | String c s' => (code_point c =? 0) || has_nul s'
  end.

(** *** [struct] *)

(** Little-endian value of a byte sequence. *)
Fixpoint le_value (b : bytes) : Z :=
  match b with
  | [] => 0
  | x :: b' => Z_of_byte x + 256 * le_value b'
  end.

(** The [n] low-order bytes of [z], least significant first. *)
Fixpoint le_bytes (n : nat) (z : Z) : bytes :=
  match n with
  | O => []
  | S n' => byte_of_Z z :: le_bytes n' (z / 256)
  end.

(** [struct.pack('<I', z)] *)
Definition pack_I (z : Z) : res bytes :=
  if (0 <=? z) && (z <? 2 ^ 32) then Ok (le_bytes 4 z) else Raise StructError.

(** [struct.unpack('<I', b)[0]] *)
Definition unpack_I (b : bytes) : res Z :=
  if (length b =? 4)%nat then Ok (le_value b) else Raise StructError.

(** [struct.pack('<i', z)] *)
Definition pack_i (z : Z) : res bytes :=
  if (- 2 ^ 31 <=? z) && (z <? 2 ^ 31) then Ok (le_bytes 4 z)
  else Raise StructError.

(** [struct.unpack('<i', b)[0]] *)
Definition unpack_i (b : bytes) : res Z :=
  if (length b =? 4)%nat then
    let u := le_value b in
    Ok (if u <? 2 ^ 31 then u else u - 2 ^ 32)
  else Raise StructError.

(** A bytes literal [b'...'] of ASCII characters. *)
Definition lit (s : string) : bytes := map byte_of_ascii (list_ascii_of_string s).

(** **** The [f] format: IEEE-754 binary32

    A Python [float] is a binary64 value.  Packing rounds it to binary32
    (to nearest, ties to even) and fails when a finite value rounds to an
    infinity; unpacking widens the binary32 value, which is exact.  All NaNs
    are one value here, packed as the quiet NaN [0x7fc00000]. *)

Definition sign_bit (s : bool) : Z := if s then 2 ^ 31 else 0.

(** Bit pattern of a binary32 value in canonical form. *)
Definition bits_of_binary32 (x : spec_float) : Z :=
  match x with
  | S754_zero s => sign_bit s
  | S754_infinity s => sign_bit s + 255 * 2 ^ 23
  | S754_nan => 255 * 2 ^ 23 + 2 ^ 22
  | S754_finite s m e =>
      if 2 ^ 23 <=? Zpos m
      then sign_bit s + (e + 150) * 2 ^ 23 + (Zpos m - 2 ^ 23)
      else sign_bit s + Zpos m
  end.

Definition binary32_of_bits (w : Z) : spec_float :=
  let s := 2 ^ 31 <=? w in
  let ef := (w / 2 ^ 23) mod 256 in
  let mant := w mod 2 ^ 23 in
  if ef =? 0 then
    match mant with
    | Zpos m => S754_finite s m (-149)
    | _ => S754_zero s
    end
  else if ef =? 255 then
    if mant =? 0 then S754_infinity s else S754_nan
  else
    match mant + 2 ^ 23 with
    | Zpos m => S754_finite s m (ef - 150)
    | _ => S754_nan
    end.

(** The C conversion [(float)x] of a binary64 value. *)
Definition to_binary32 (v : float) : spec_float :=
  match Prim2SF v with
  | S754_finite s m e => binary_round 24 128 s m e
  | x => x
  end.

(** [struct.pack('<f', v)] *)
Definition pack_f (v : float) : res bytes :=
  let x := to_binary32 v in
  match Prim2SF v, x with
  | S754_finite _ _ _, S754_infinity _ => Raise OverflowError
  | _, _ => Ok (le_bytes 4 (bits_of_binary32 x))
  end.

(** [struct.unpack('<f', b)[0]] *)
Definition unpack_f (b : bytes) : res float :=
  if (length b =? 4)%nat then Ok (SF2Prim (binary32_of_bits (le_value b)))
  else Raise StructError.

End Py.

Import Py.

(** ** The editor

    [decompressed] is the payload ([self.decompressed], a bytearray); a
    method that mutates it returns the new payload next to its result. *)

Record SaveData : Type := mkSaveData {
  header : bytes;
  size_info_offset : Z;
  compression_offset : Z;
  sd_decompressed : bytes;
  uncompressed_size : Z;
  compressed_size : Z
}.

Record Editor : Type := mkEditor {
  save_data : SaveData;
  decompressed : bytes
}.

(** *** Field locator *)

Definition _find_property_offset (decompressed : bytes)
    (property_name data_type : string) : Z :=
  let pos := find decompressed (encode property_name ++ [x00]) in
  if pos =? -1 then -1
  else
    let type_name :=
      if String.eqb data_type "float" then lit "FloatProperty" ++ [x00]
      else lit "IntProperty" ++ [x00] in
    pos + str_len property_name + 1 + len type_name + 4 + 8.

Definition _find_weapon_offset (decompressed : bytes) (weapon_name : string) : Z :=
  let pos := find decompressed (encode weapon_name ++ [x00]) in
  if pos =? -1 then -1
  else pos + str_len weapon_name + 1.

Definition get_health (decompressed : bytes) : res (option float) :=
  let offset := _find_property_offset decompressed "HealthValue" "float" in
  if offset >? 0 then
    v <- unpack_f (slice decompressed offset (offset + 4)) ;; Ok (Some v)
  else Ok None.

Definition set_health (decompressed : bytes) (value : float) : res (bool * bytes) :=
  let offset := _find_property_offset decompressed "HealthValue" "float" in
  if offset >? 0 then
    b <- pack_f value ;;
    Ok (true, set_slice decompressed offset (offset + 4) b)
  else Ok (false, decompressed).

Definition get_weapon_ammo (decompressed : bytes) (weapon_name : string)
  : res (option Z) :=
  let offset := _find_weapon_offset decompressed weapon_name in
  if offset >? 0 then
    v <- unpack_i (slice decompressed offset (offset + 4)) ;; Ok (Some v)
  else Ok None.

Definition set_weapon_ammo (decompressed : bytes) (weapon_name : string)
    (amount : Z) : res (bool * bytes) :=
  let offset := _find_weapon_offset decompressed weapon_name in
  if offset >? 0 then
    b <- pack_i amount ;;
    Ok (true, set_slice decompressed offset (offset + 4) b)
  else Ok (false, decompressed).

Definition _find_item_quantity_offset (decompressed : bytes) (item_name : string) : Z :=
  let pos := find decompressed (encode item_name ++ [x00]) in
  if pos =? -1 then -1
  else
    let qty_pos := find_in decompressed (lit "Quantity" ++ [x00]) pos (pos + 100) in
    if qty_pos =? -1 then -1
    else qty_pos + 34.

Definition get_item_quantity (decompressed : bytes) (item_name : string)
  : res (option Z) :=
  let offset := _find_item_quantity_offset decompressed item_name in
  if (offset >? 0) && (offset + 4 <=? len decompressed) then
    v <- unpack_i (slice decompressed offset (offset + 4)) ;; Ok (Some v)
  else Ok None.

Definition set_item_quantity (decompressed : bytes) (item_name : string)
    (amount : Z) : res (bool * bytes) :=
  let offset := _find_item_quantity_offset decompressed item_name in
  if (offset >? 0) && (offset + 4 <=? len decompressed) then
    b <- pack_i amount ;;
    Ok (true, set_slice decompressed offset (offset + 4) b)
  else Ok (false, decompressed).

(** *** Container locator *)

Section Container.

(** [zlib.compress(_, level=9)] and [zlib.decompress]. *)
Variable compress : bytes -> bytes.
Variable decompress : bytes -> res bytes.

Definition is_signature (b : bytes) : bool :=
  match b with
  | [x78; x9c] => true
  | [x78; xda] => true
  | _ => false
  end.

(** The body of the loop of [load] at a matching offset [i]. *)
Definition load_at (data : bytes) (i : Z) : res Editor :=
  let compressed_size_offset := i - 8 in
  compressed_size <-
    unpack_I (slice data compressed_size_offset (compressed_size_offset + 4)) ;;
  uncompressed_size <-
    unpack_I (slice data (compressed_size_offset + 4) (compressed_size_offset + 8)) ;;
  let compressed_data := slice data i (i + compressed_size) in
  decompressed <- decompress compressed_data ;;
  Ok {| save_data :=
          {| header := slice_to data compressed_size_offset;
             size_info_offset := compressed_size_offset;
             compression_offset := i;
             sd_decompressed := decompressed;
             uncompressed_size := uncompressed_size;
             compressed_size := compressed_size |};
        decompressed := decompressed |}.

(** [for i in range(...)]: the first matching offset returns. *)
Fixpoint load_loop (data : bytes) (range : list Z) : res (option Editor) :=
  match range with
  | [] => Ok None
  | i :: range' =>
      if is_signature (slice data i (i + 2))
      then ed <- load_at data i ;; Ok (Some ed)
      else load_loop data range'
  end.

Definition range (lo hi : nat) : list Z := map Z.of_nat (seq lo (hi - lo)).

(** [load]: [Ok (Some ed)] is [return True] with the state it sets,
    [Ok None] is [return False]. *)
Definition load (data : bytes) : res (option Editor) :=
  load_loop data (range 0 300).

(** [save]: the bytes written to the output file. *)
Definition save (ed : Editor) : res bytes :=
  let compressed := compress (decompressed ed) in
  let new_uncompressed_size := len (decompressed ed) in
  let new_compressed_size := len compressed in
  cs <- pack_I new_compressed_size ;;
  us <- pack_I new_uncompressed_size ;;
  Ok (header (save_data ed) ++ cs ++ us ++ compressed).

End Container.

(** * Notions used by the properties *)

(** ** Occurrences of a token *)

(** [sub] occurs in [b] at index [k]: byte [k + j] of [b] is byte [j] of
    [sub], for every [j] below the length of [sub]. *)
Definition occurs_at (sub b : bytes) (k : nat) : Prop :=
  forall j, (j < length sub)%nat -> nth_error b (k + j) = nth_error sub j.

(** [k] is the lowest index from [lo] on at which [sub] occurs in [b], and
    the occurrence ends at or before [hi]. *)
Definition first_in (sub b : bytes) (lo hi k : nat) : Prop :=
  (lo <= k)%nat /\ (k + length sub <= hi)%nat /\ occurs_at sub b k /\
  forall j, (lo <= j < k)%nat -> ~ occurs_at sub b j.

(** No occurrence of [sub] in [b] lies within [lo .. hi]. *)
Definition none_in (sub b : bytes) (lo hi : nat) : Prop :=
  forall j, (lo <= j)%nat -> (j + length sub <= hi)%nat -> ~ occurs_at sub b j.

Definition first_occurrence (sub b : bytes) (k : nat) : Prop :=
  occurs_at sub b k /\ forall j, (j < k)%nat -> ~ occurs_at sub b j.

Definition absent (sub b : bytes) : Prop :=
  forall j, ~ occurs_at sub b j.

(** The lookup of an item quantity, as a relation between a payload, an
    item name and the offset computed. *)
Definition item_lookup (d : bytes) (name : string) (off : Z) : Prop :=
  let token := encode name ++ [x00] in
  let quantity := lit "Quantity" ++ [x00] in
  (absent token d /\ off = -1) \/
  (exists pos : nat,
      first_occurrence token d pos /\
      let hi := Nat.min (pos + 100) (length d) in
      (none_in quantity d pos hi /\ off = -1) \/
      (exists q : nat, first_in quantity d pos hi q /\ off = Z.of_nat q + 34)).

(** ** Payloads that differ in a few bytes *)

(** [d'] has the bytes of [d] at every index below [n]. *)
Definition agree_upto (n : nat) (d d' : bytes) : Prop :=
  forall i, (i < n)%nat -> nth_error d' i = nth_error d i.

(** [d'] has the length of [d] and its bytes at every index outside
    [a .. a + n). *)
Definition same_outside (a n : nat) (d d' : bytes) : Prop :=
  length d' = length d /\
  forall i, (i < a \/ a + n <= i)%nat -> nth_error d' i = nth_error d i.

(** ** Fields

    The three kinds of field the editor addresses, with the dispatch of
    the modification loop of [main]: the health goes to [set_health], an
    item to [set_item_quantity] and everything else to [set_weapon_ammo]. *)

Inductive field : Set :=
| Health
| WeaponAmmo (weapon_name : string)
| ItemQuantity (item_name : string).

Inductive value : Set :=
| VFloat (x : float)
| VInt (z : Z).

(** The Python type of the value of a field. *)
Definition value_of (f : field) : Set :=
  match f with
  | Health => float
  | _ => Z
  end.

Definition offset_of (f : field) (d : bytes) : Z :=
  match f with
  | Health => _find_property_offset d "HealthValue" "float"
  | WeaponAmmo weapon_name => _find_weapon_offset d weapon_name
  | ItemQuantity item_name => _find_item_quantity_offset d item_name
  end.

Definition read (d : bytes) (f : field) : res (option value) :=
  match f with
  | Health => r <- get_health d ;; Ok (option_map VFloat r)
  | WeaponAmmo weapon_name =>
      r <- get_weapon_ammo d weapon_name ;; Ok (option_map VInt r)
  | ItemQuantity item_name =>
      r <- get_item_quantity d item_name ;; Ok (option_map VInt r)
  end.

Definition write (d : bytes) (f : field) : value_of f -> res (bool * bytes) :=
  match f with
  | Health => fun v => set_health d v
  | WeaponAmmo weapon_name => fun v => set_weapon_ammo d weapon_name v
  | ItemQuantity item_name => fun v => set_item_quantity d item_name v
  end.

(** Names whose token ends where the lookup expects it: ASCII for a
    weapon, free of zero characters for an item. *)
Definition well_named (f : field) : bool :=
  match f with
  | Health => true
  | WeaponAmmo weapon_name => is_ascii weapon_name
  | ItemQuantity item_name => negb (has_nul item_name)
  end.

(** The name searched for a field. *)
Definition field_name (f : field) : string :=
  match f with
  | Health => "HealthValue"
  | WeaponAmmo weapon_name => weapon_name
  | ItemQuantity item_name => item_name
  end.

(** The test a write makes on the offset: found, and for an item also
    inside the payload. *)
Definition write_guard (f : field) (d : bytes) : bool :=
  match f with
  | ItemQuantity _ => (offset_of f d >? 0) && (offset_of f d + 4 <=? len d)
  | _ => offset_of f d >? 0
  end.

(** The bytes a write packs. *)
Definition pack_value (f : field) : value_of f -> res bytes :=
  match f with
  | Health => fun v => pack_f v
  | _ => fun v => pack_i v
  end.

(** ** Containers *)

(** A zlib stream header at index [i]. *)
Definition sig_at (data : bytes) (i : nat) : Prop :=
  nth_error data i = Some x78 /\
  (nth_error data (i + 1) = Some x9c \/ nth_error data (i + 1) = Some xda).

(** [i] is the first index below 300 with a stream header. *)
Definition first_signature (data : bytes) (i : nat) : Prop :=
  (i < 300)%nat /\ sig_at data i /\ forall j, (j < i)%nat -> ~ sig_at data j.

Definition no_signature (data : bytes) : Prop :=
  forall j, (j < 300)%nat -> ~ sig_at data j.

(** The little-endian unsigned 32-bit integer at index [k]. *)
Definition u32_at (data : bytes) (k : nat) : Z :=
  le_value (firstn 4 (skipn k data)).

(** The state of the editor after the payload was changed to [payload]. *)
Definition with_payload (ed : Editor) (payload : bytes) : Editor :=
  {| save_data := save_data ed; decompressed := payload |}.

(** A stand-in for zlib where a concrete codec is needed: the payload is
    stored after the two header bytes [78 da] by [stored_compress];
    [stored_decompress] also reads a stream [78 9c] with one more header
    byte. *)
Definition stored_compress (p : bytes) : bytes := x78 :: xda :: p.

Definition stored_decompress (s : bytes) : res bytes :=
  match s with
  | x78 :: xda :: p => Ok p
  | x78 :: x9c :: _ :: p => Ok p
  | _ => Raise ZlibError
  end.

(** ** The command line

    [display_info] and [main] print and exit; the model keeps what decides
    the text (the values shown, the outcome of each modification) and what
    is written, and leaves the text out.  An uncaught exception is [None].
    Python's conversions of a string or of a number, [float(...)] and
    [int(...)], are parameters, [None] where they raise; so are
    [zlib.compress], [zlib.decompress], and the files that exist, a path
    with [Some] content being a file that can be read. *)

Definition lift {A : Type} (r : res A) : option A :=
  match r with
  | Ok a => Some a
  | Raise _ => None
  end.

Definition obind {A B : Type} (m : option A) (k : A -> option B) : option B :=
  match m with
  | Some a => k a
  | None => None
  end.

(** What [display_info] shows: the health when there is one, then the
    weapons and the items that have a value, in the order of the two lists
    of names ([found_weapons] and [found_items] are whether these are not
    empty). *)
Record Info : Type := mkInfo {
  info_health : option float;
  info_weapons : list (string * Z);
  info_items : list (string * Z)
}.

Definition weapons : list string :=
  ["Pistol"; "Shotgun"; "Rifle"; "Handgun"; "SteelPipe"]%string.

Definition inventory_items : list string :=
  ["HealthDrink"; "Syringe"; "HandgunAmmo"; "ShotgunAmmo"; "ShotgunShells";
   "RifleAmmo"; "FirstAidKit"]%string.

(** [for name in names: v = get(name); if v is not None: print ...] *)
Fixpoint display_loop (get : string -> res (option Z)) (names : list string)
  : option (list (string * Z)) :=
  match names with
  | [] => Some []
  | name :: names' =>
      obind (lift (get name)) (fun v =>
      obind (display_loop get names') (fun shown =>
      Some match v with
           | Some z => (name, z) :: shown
           | None => shown
           end))
  end.

Definition display_info (decompressed : bytes) : option Info :=
  obind (lift (get_health decompressed)) (fun health =>
  obind (display_loop (get_weapon_ammo decompressed) weapons) (fun ws =>
  obind (display_loop (get_item_quantity decompressed) inventory_items) (fun its =>
  Some {| info_health := health; info_weapons := ws; info_items := its |}))).

(** The local variables of [main] that the argument loop sets. *)
Record Options : Type := mkOptions {
  output_file : option string;
  modifications : list (string * value);
  create_backup_flag : bool
}.

Inductive parsed : Type :=
| PInfo                    (* [--info]: [display_info()] and [sys.exit(0)] *)
| PValueError              (* [float(...)] or [int(...)] raised *)
| POptions (o : Options).  (* the loop ran to the end *)

Definition add_modification (o : Options) (m : string * value) : Options :=
  {| output_file := output_file o;
     modifications := modifications o ++ [m];
     create_backup_flag := create_backup_flag o |}.

Section Cli.

Variable float_of_str : string -> option float.
Variable int_of_str : string -> option Z.
Variable float_of_int : Z -> option float.
Variable int_of_float : float -> option Z.
Variable compress : bytes -> bytes.
Variable decompress : bytes -> res bytes.

(** The argument loop of [main], on [sys.argv[i:]]. *)
Fixpoint parse_args (o : Options) (args : list string) {struct args} : parsed :=
  match args with
  | [] => POptions o
  | arg :: rest =>
      if String.eqb arg "--info" then PInfo
      else if String.eqb arg "--no-backup" then
        parse_args {| output_file := output_file o;
                      modifications := modifications o;
                      create_backup_flag := false |} rest
      else
        match rest with
        | [] => parse_args o rest
        | next :: rest' =>
            let count (mod_type : string) :=
              match int_of_str next with
              | Some value => parse_args (add_modification o (mod_type, VInt value)) rest'
              | None => PValueError
              end in
            if String.eqb arg "--health" then
              match float_of_str next with
              | Some value => parse_args (add_modification o ("health"%string, VFloat value)) rest'
              | None => PValueError
              end
            else if String.eqb arg "--pistol" then count "Pistol"%string
            else if String.eqb arg "--shotgun" then count "Shotgun"%string
            else if String.eqb arg "--rifle" then count "Rifle"%string
            else if String.eqb arg "--healthdrink" then count "item:HealthDrink"%string
            else if String.eqb arg "--syringe" then count "item:Syringe"%string
            else if String.eqb arg "--handgunammo" then count "item:HandgunAmmo"%string
            else if String.eqb arg "--shotgunammo" then count "item:ShotgunAmmo"%string
            else if String.eqb arg "--rifleammo" then count "item:RifleAmmo"%string
            else if String.eqb arg "--output" then
              parse_args {| output_file := Some next;
                            modifications := modifications o;
                            create_backup_flag := create_backup_flag o |} rest'
            else parse_args o rest
        end
  end.

(** [float(value)] and [int(amount)] of a value of either type. *)
Definition py_float (v : value) : option float :=
  match v with
  | VFloat x => Some x
  | VInt z => float_of_int z
  end.

Definition py_int (v : value) : option Z :=
  match v with
  | VInt z => Some z
  | VFloat x => int_of_float x
  end.

(** One modification: the setter chosen by [mod_type].  The setter
    converts the value after it has found the field. *)
Definition apply_modification (d : bytes) (m : string * value)
  : option (bool * bytes) :=
  let (mod_type, value) := m in
  if String.eqb mod_type "health" then
    if _find_property_offset d "HealthValue" "float" >? 0
    then obind (py_float value) (fun x => lift (set_health d x))
    else Some (false, d)
  else if String.prefix "item:" mod_type then
    let item_name := String.substring 5 (String.length mod_type - 5) mod_type in
    let offset := _find_item_quantity_offset d item_name in
    if (offset >? 0) && (offset + 4 <=? len d)
    then obind (py_int value) (fun z => lift (set_item_quantity d item_name z))
    else Some (false, d)
  else
    if _find_weapon_offset d mod_type >? 0
    then obind (py_int value) (fun z => lift (set_weapon_ammo d mod_type z))
    else Some (false, d).

(** [for mod_type, value in modifications]: the outcome of each, in
    order, and the payload at the end. *)
Fixpoint apply_modifications (d : bytes) (mods : list (string * value))
  : option (list bool * bytes) :=
  match mods with
  | [] => Some ([], d)
  | m :: mods' =>
      obind (apply_modification d m) (fun r =>
      obind (apply_modifications (snd r) mods') (fun rs =>
      Some (fst r :: fst rs, snd rs)))
  end.

Inductive outcome : Type :=
| Usage              (* fewer than two arguments: [sys.exit(1)] *)
| FileNotFound       (* [sys.exit(1)] *)
| LoadFailed         (* [load] returned [False]: [sys.exit(1)] *)
| Shown (i : Info)   (* [--info]: [sys.exit(0)] *)
| NoModifications    (* nothing asked for, nothing written *)
| Saved (backup : bool) (path : string) (content : bytes) (results : list bool)
| Crashed.           (* an uncaught exception, before the output is written *)

Definition main (files : string -> option bytes) (argv : list string) : outcome :=
  match argv with
  | [] | [_] => Usage
  | _ :: save_file :: args =>
      match files save_file with
      | None => FileNotFound
      | Some data =>
          match load decompress data with
          | Raise _ => Crashed
          | Ok None => LoadFailed
          | Ok (Some editor) =>
              match parse_args {| output_file := None;
                                  modifications := [];
                                  create_backup_flag := true |} args with
              | PInfo =>
                  match display_info (decompressed editor) with
                  | Some i => Shown i
                  | None => Crashed
                  end
              | PValueError => Crashed
              | POptions o =>
                  match modifications o with
                  | [] => NoModifications
                  | _ :: _ =>
                      let backup :=
                        create_backup_flag o &&
                        match output_file o with None => true | Some _ => false end in
                      match apply_modifications (decompressed editor)
                                                (modifications o) with
                      | None => Crashed
                      | Some (results, payload) =>
                          match save compress (with_payload editor payload) with
                          | Raise _ => Crashed
                          | Ok new_file =>
                              Saved backup
                                    match output_file o with
                                    | None => save_file
                                    | Some output_filename => output_filename
                                    end
                                    new_file results
                          end
                      end
                  end
              end
          end
      end
  end.

End Cli.

(** The fields the options of [main] name. *)
Definition main_fields : list field :=
  [Health;
   WeaponAmmo "Pistol"; WeaponAmmo "Shotgun"; WeaponAmmo "Rifle";
   ItemQuantity "HealthDrink"; ItemQuantity "Syringe";
   ItemQuantity "HandgunAmmo"; ItemQuantity "ShotgunAmmo";
   ItemQuantity "RifleAmmo"].

(** The outcomes [rs] with one more, [r], at index [n]. *)
Definition insert_at (n : nat) (r : bool) (rs : list bool) : list bool :=
  firstn n rs ++ r :: skipn n rs.

(** The fields [display_info] reads without a check that four bytes are
    left: the health and the five weapons. *)
Definition unchecked_fields : list field :=
  Health :: map WeaponAmmo weapons.

(** Stand-ins for Python's conversions where concrete ones are needed:
    [int] on a string of decimal digits, [float] on such a string and on an
    integer when the number is below 2^53, and [int] on a float, which
    truncates.  The first three are defined on fewer arguments than
    Python's. *)
Definition digits_int (s : string) : option Z :=
  option_map Z.of_uint (NilZero.uint_of_string s).

Definition small_float (z : Z) : option float :=
  if (0 <=? z) && (z <? 2 ^ 53) then Some (PrimFloat.of_uint63 (Uint63.of_Z z))
  else None.

Definition digits_float (s : string) : option float :=
  obind (digits_int s) small_float.

Definition trunc_float (x : float) : option Z :=
  match Prim2SF x with
  | S754_zero _ => Some 0
  | S754_finite s m e =>
      let a := if 0 <=? e then Z.pos m * 2 ^ e else Z.pos m / 2 ^ (- e) in
      Some (if s then - a else a)
  | _ => None
  end.

(** A directory with one file. *)
Definition one_file (name : string) (content : bytes) (path : string)
  : option bytes :=
  if String.eqb path name then Some content else None.

(** What the argument loop can have done to the output file and to the
    backup flag when it went from [o] to [o'] over [args]. *)
Definition options_from (o : Options) (args : list string) (o' : Options) : Prop :=
  (output_file o' = output_file o \/
   exists (k : nat) (p : string),
     nth_error args k = Some "--output"%string /\
     nth_error args (S k) = Some p /\ output_file o' = Some p) /\
  (create_backup_flag o' = create_backup_flag o \/
   create_backup_flag o' = false /\ In "--no-backup"%string args).

(** * Properties *)

(** ** Bytes and [struct] *)

Lemma len_nonneg (b : bytes) : 0 <= len b.
Proof. unfold len; lia. Qed.

Lemma len_app (a b : bytes) : len (a ++ b) = len a + len b.
Proof. unfold len; rewrite length_app; lia. Qed.

Lemma Z_of_byte_range (b : byte) : 0 <= Z_of_byte b < 256.
Proof.
  unfold Z_of_byte. pose proof (Byte.to_N_bounded b). lia.
Qed.

Lemma Z_of_byte_of_Z (z : Z) : Z_of_byte (byte_of_Z z) = z mod 256.
Proof.
  unfold Z_of_byte, byte_of_Z.
  pose proof (Z.mod_pos_bound z 256 ltac:(lia)) as Hm.
  destruct (Byte.of_N (Z.to_N (z mod 256))) as [b|] eqn:E.
  - apply Byte.to_of_N in E. rewrite E. lia.
  - apply Byte.of_N_None_iff in E. lia.
Qed.

Lemma byte_of_Z_of_byte (b : byte) : byte_of_Z (Z_of_byte b) = b.
Proof.
  unfold byte_of_Z, Z_of_byte.
  pose proof (Byte.to_N_bounded b) as Hb.
  rewrite Z.mod_small by lia.
  rewrite N2Z.id, Byte.of_to_N. reflexivity.
Qed.

Lemma Z_of_byte_inj (a b : byte) : Z_of_byte a = Z_of_byte b -> a = b.
Proof.
  intro H. rewrite <- (byte_of_Z_of_byte a), <- (byte_of_Z_of_byte b), H.
  reflexivity.
Qed.

Lemma length_le_bytes (n : nat) (z : Z) : length (le_bytes n z) = n.
Proof. revert z; induction n; intros; simpl; auto. Qed.

Lemma le_value_le_bytes (n : nat) (z : Z) :
  le_value (le_bytes n z) = z mod 256 ^ Z.of_nat n.
Proof.
  revert z; induction n as [|n IH]; intros z.
  - simpl. rewrite Z.mod_1_r. reflexivity.
  - cbn [le_bytes le_value]. rewrite IH, Z_of_byte_of_Z.
    rewrite Nat2Z.inj_succ, Z.pow_succ_r by lia.
    rewrite (Z.rem_mul_r z 256 (256 ^ Z.of_nat n)) by lia. reflexivity.
Qed.

Lemma le_value_range (b : bytes) : 0 <= le_value b < 256 ^ len b.
Proof.
  unfold len. induction b as [|x b IH].
  - simpl. lia.
  - cbn [le_value length]. rewrite Nat2Z.inj_succ, Z.pow_succ_r by lia.
    pose proof (Z_of_byte_range x). lia.
Qed.

Lemma le_bytes_le_value (b : bytes) : le_bytes (length b) (le_value b) = b.
Proof.
  induction b as [|x b IH]; [reflexivity|].
  cbn [length le_bytes le_value].
  pose proof (Z_of_byte_range x) as Hx.
  replace (Z_of_byte x + 256 * le_value b) with (le_value b * 256 + Z_of_byte x) by lia.
  rewrite Z.div_add_l, (Z.div_small (Z_of_byte x)), Z.add_0_r, IH by lia.
  f_equal.
  apply Z_of_byte_inj. rewrite Z_of_byte_of_Z.
  rewrite Z.add_comm, Z.mod_add, Z.mod_small by lia. reflexivity.
Qed.

Lemma Ok_inj {A : Type} (a b : A) : Ok a = Ok b -> a = b.
Proof. intro H. injection H. auto. Qed.

Lemma pack_I_length z b : pack_I z = Ok b -> length b = 4%nat.
Proof.
  unfold pack_I. destruct (_ && _); intro H; [|discriminate].
  apply Ok_inj in H. subst b. apply length_le_bytes.
Qed.

Lemma pack_i_length z b : pack_i z = Ok b -> length b = 4%nat.
Proof.
  unfold pack_i. destruct (_ && _); intro H; [|discriminate].
  apply Ok_inj in H. subst b. apply length_le_bytes.
Qed.

Lemma pack_f_length v b : pack_f v = Ok b -> length b = 4%nat.
Proof.
  unfold pack_f. generalize (to_binary32 v). intro x.
  destruct (Prim2SF v); destruct x; intro H; try discriminate;
    apply Ok_inj in H; subst b; apply length_le_bytes.
Qed.

Lemma pack_I_ok z : 0 <= z < 2 ^ 32 -> pack_I z = Ok (le_bytes 4 z).
Proof.
  intro H. unfold pack_I.
  destruct (0 <=? z) eqn:E1; [|lia]. destruct (z <? 2 ^ 32) eqn:E2; [|lia].
  reflexivity.
Qed.

Lemma unpack_pack_I z b : pack_I z = Ok b -> unpack_I b = Ok z.
Proof.
  unfold pack_I. destruct (0 <=? z) eqn:E1; [|discriminate].
  destruct (z <? 2 ^ 32) eqn:E2; [|discriminate].
  intro H. apply Ok_inj in H. subst b.
  unfold unpack_I.
  rewrite length_le_bytes, le_value_le_bytes. simpl (_ =? _)%nat. cbv iota.
  rewrite Z.mod_small; [reflexivity|]. change (256 ^ Z.of_nat 4) with (2 ^ 32). lia.
Qed.

Lemma unpack_pack_i z b : pack_i z = Ok b -> unpack_i b = Ok z.
Proof.
  unfold pack_i. destruct (- 2 ^ 31 <=? z) eqn:E1; [|discriminate].
  destruct (z <? 2 ^ 31) eqn:E2; [|discriminate].
  intro H. apply Ok_inj in H. subst b.
  unfold unpack_i.
  rewrite length_le_bytes, le_value_le_bytes. simpl (_ =? _)%nat. cbv iota zeta.
  change (256 ^ Z.of_nat 4) with (2 ^ 32). f_equal.
  destruct (Z.ltb_spec (z mod 2 ^ 32) (2 ^ 31)) as [Hlt|Hge].
  - destruct (Z.ltb_spec z 0).
    + rewrite <- (Z.mod_add z 1 (2 ^ 32)) in Hlt by lia.
      rewrite Z.mod_small in Hlt by lia. lia.
    + rewrite Z.mod_small by lia. reflexivity.
  - destruct (Z.ltb_spec z 0).
    + rewrite <- (Z.mod_add z 1 (2 ^ 32)) by lia.
      rewrite Z.mod_small by lia. lia.
    + rewrite Z.mod_small in Hge by lia. lia.
Qed.

(** ** Substring search *)

Section Search.

Variable sub : bytes.

Lemma occurs_at_bound b k :
  sub <> [] -> occurs_at sub b k -> (k + length sub <= length b)%nat.
Proof.
  intros Hne H. destruct sub as [|x t] eqn:E; [congruence|].
  specialize (H (length t) ltac:(simpl; lia)).
  assert (Hs : nth_error (x :: t) (length t) <> None)
    by (apply nth_error_Some; simpl; lia).
  rewrite <- H in Hs. apply nth_error_Some in Hs. simpl. lia.
Qed.

Lemma occurs_at_cons y b k : occurs_at sub (y :: b) (S k) <-> occurs_at sub b k.
Proof. unfold occurs_at. simpl. tauto. Qed.

Lemma occurs_at_skipn s b k :
  occurs_at sub (skipn s b) k <-> occurs_at sub b (s + k).
Proof.
  unfold occurs_at. split; intros H j Hj; specialize (H j Hj).
  - rewrite nth_error_skipn in H. rewrite <- H. f_equal. lia.
  - rewrite nth_error_skipn. rewrite <- H. f_equal. lia.
Qed.

Lemma occurs_at_firstn n b k :
  sub <> [] ->
  occurs_at sub (firstn n b) k <->
  occurs_at sub b k /\ (k + length sub <= n)%nat.
Proof.
  intro Hne. split.
  - intro H. pose proof (occurs_at_bound _ _ Hne H) as Hb.
    rewrite length_firstn in Hb. split; [|lia].
    intros j Hj. specialize (H j Hj). rewrite nth_error_firstn in H.
    destruct (Nat.ltb_spec (k + j) n); [assumption|lia].
  - intros [H Hk] j Hj. rewrite nth_error_firstn.
    destruct (Nat.ltb_spec (k + j) n); [auto|lia].
Qed.

Lemma starts_with_iff b : starts_with sub b = true <-> occurs_at sub b 0.
Proof.
  revert b. induction sub as [|x t IH]; intro b.
  - simpl. split; [|reflexivity]. intros _ j Hj. simpl in Hj. lia.
  - destruct b as [|y b].
    + simpl. split; [discriminate|]. intro H.
      specialize (H 0%nat ltac:(simpl; lia)). discriminate.
    + simpl. rewrite andb_true_iff, IH. split.
      * intros [Hxy Ht] [|j] Hj; simpl in *.
        -- apply Byte.byte_dec_bl in Hxy. congruence.
        -- apply (Ht j). lia.
      * intro H. split.
        -- specialize (H 0%nat ltac:(simpl; lia)). simpl in H.
           apply Byte.byte_dec_lb. congruence.
        -- intros j Hj. apply (H (S j)). simpl. lia.
Qed.

Lemma index_in_Some b k :
  index_in sub b = Some k -> first_occurrence sub b k.
Proof.
  revert k. induction b as [|y b IH]; intros k; simpl.
  - destruct (starts_with sub []) eqn:E; [|discriminate].
    intros [= <-]. split; [apply starts_with_iff; assumption|]. intros j Hj; lia.
  - destruct (starts_with sub (y :: b)) eqn:E.
    + intros [= <-]. split; [apply starts_with_iff; assumption|]. intros j Hj; lia.
    + destruct (index_in sub b) as [k'|]; [|discriminate].
      simpl. intros [= <-]. destruct (IH k' eq_refl) as [Ho Hmin].
      split; [apply occurs_at_cons; assumption|].
      intros [|j] Hj Hc.
      * apply starts_with_iff in Hc. congruence.
      * apply occurs_at_cons in Hc. apply (Hmin j); [lia|assumption].
Qed.

Lemma index_in_None b : index_in sub b = None -> absent sub b.
Proof.
  induction b as [|y b IH]; simpl.
  - destruct (starts_with sub []) eqn:E; [discriminate|]. intros _ j Hc.
    destruct sub as [|x t]; [discriminate|].
    specialize (Hc 0%nat ltac:(simpl; lia)). rewrite Nat.add_0_r in Hc.
    destruct j; discriminate.
  - destruct (starts_with sub (y :: b)) eqn:E; [discriminate|].
    destruct (index_in sub b) as [k'|]; [discriminate|].
    intros _ [|j] Hc.
    + apply starts_with_iff in Hc. congruence.
    + apply occurs_at_cons in Hc. apply (IH eq_refl j). assumption.
Qed.

Hypothesis sub_nonempty : sub <> [].

(** What [find_in] computes, for bounds that are not negative. *)
Lemma find_in_spec b start stop :
  0 <= start -> 0 <= stop ->
  let lo := Z.to_nat start in
  let hi := Z.to_nat (Z.min stop (len b)) in
  (find_in b sub start stop = -1 /\ none_in sub b lo hi) \/
  (exists k, find_in b sub start stop = Z.of_nat k /\ first_in sub b lo hi k).
Proof.
  intros Hs He lo hi. unfold find_in.
  assert (Ha : adjust (len b) stop = Z.min stop (len b)).
  { unfold adjust. destruct (Z.ltb_spec stop 0); lia. }
  rewrite Ha. destruct (Z.ltb_spec start 0) as [|_]; [lia|].
  fold hi in Ha.
  destruct (Z.ltb_spec (Z.min stop (len b) - start) (len sub)) as [Hlt|Hge].
  - left. split; [reflexivity|]. intros j Hj Hh _. unfold len in *. subst lo hi. lia.
  - set (w := firstn (Z.to_nat (Z.min stop (len b) - start))
                (skipn (Z.to_nat start) b)).
    assert (Hw : forall k, occurs_at sub w k <->
                           occurs_at sub b (lo + k) /\ (lo + k + length sub <= hi)%nat).
    { intro k. unfold w. rewrite occurs_at_firstn by assumption.
      rewrite occurs_at_skipn. fold lo. unfold len in *. subst hi.
      split; intros [H1 H2]; (split; [assumption|lia]). }
    destruct (index_in sub w) as [k|] eqn:E.
    + right. exists (lo + k)%nat. apply index_in_Some in E. destruct E as [Ho Hmin].
      apply Hw in Ho. destruct Ho as [Ho Hb].
      split; [subst lo; lia|]. repeat split; try assumption; try lia.
      intros j Hj Hc. apply (Hmin (j - lo)%nat); [lia|].
      apply Hw. replace (lo + (j - lo))%nat with j by lia. split; [assumption|lia].
    + left. split; [reflexivity|]. intros j Hj Hh Hc.
      apply (index_in_None _ E (j - lo)%nat). apply Hw.
      replace (lo + (j - lo))%nat with j by lia. split; [assumption|lia].
Qed.

(** What [find] computes. *)
Lemma find_spec b :
  (find b sub = -1 /\ absent sub b) \/
  (exists k, find b sub = Z.of_nat k /\ first_occurrence sub b k).
Proof.
  unfold find.
  destruct (find_in_spec b 0 (len b) ltac:(lia) (len_nonneg b)) as [[H N]|[k [H F]]].
  - left. split; [assumption|]. intros j Hc.
    pose proof (occurs_at_bound _ _ sub_nonempty Hc).
    apply (N j); [lia| unfold len; lia |assumption].
  - right. exists k. split; [assumption|].
    destruct F as (_ & _ & Ho & Hmin). split; [assumption|].
    intros j Hj. apply Hmin. lia.
Qed.

Lemma find_range b : find b sub = -1 \/ 0 <= find b sub /\ find b sub + len sub <= len b.
Proof.
  destruct (find_spec b) as [[H _]|[k [H [Ho _]]]]; [left; assumption|right].
  pose proof (occurs_at_bound _ _ sub_nonempty Ho). unfold len. lia.
Qed.

End Search.

(** ** Slices *)

Lemma adjust_nonneg n k : 0 <= k -> adjust n k = Z.min k n.
Proof. intro H. unfold adjust. destruct (Z.ltb_spec k 0); lia. Qed.

Lemma adjust_range n k : 0 <= n -> 0 <= adjust n k <= n.
Proof. intro H. unfold adjust. destruct (Z.ltb_spec k 0); lia. Qed.

Lemma length_slice b s e :
  Z.of_nat (length (slice b s e)) =
  Z.max 0 (adjust (len b) e - adjust (len b) s).
Proof.
  unfold slice. rewrite length_firstn, length_skipn.
  pose proof (adjust_range (len b) s (len_nonneg b)).
  pose proof (adjust_range (len b) e (len_nonneg b)).
  unfold len in *. lia.
Qed.

(** A slice that lies inside the sequence. *)
Lemma slice_inside b s e :
  0 <= s <= e -> e <= len b ->
  slice b s e = firstn (Z.to_nat (e - s)) (skipn (Z.to_nat s) b).
Proof.
  intros H1 H2. unfold slice. rewrite !adjust_nonneg by lia.
  rewrite !Z.min_l by lia. reflexivity.
Qed.

(** A slice that starts inside the sequence and runs over its end is cut
    at the end. *)
Lemma short_slice b s n :
  0 <= s -> 0 < n -> len b < s + n -> (length (slice b s (s + n)) < Z.to_nat n)%nat.
Proof.
  intros Hs Hn Hlen. pose proof (length_slice b s (s + n)) as L.
  pose proof (len_nonneg b).
  rewrite !adjust_nonneg in L by lia. lia.
Qed.

Lemma set_slice_inside b s e v :
  0 <= s <= e -> e <= len b ->
  set_slice b s e v = firstn (Z.to_nat s) b ++ v ++ skipn (Z.to_nat e) b.
Proof.
  intros H1 H2. unfold set_slice. rewrite !adjust_nonneg by lia.
  rewrite !Z.min_l by lia. rewrite Z.max_r by lia. reflexivity.
Qed.

Lemma len_set_slice_inside b s e v :
  0 <= s <= e -> e <= len b -> len v = e - s -> len (set_slice b s e v) = len b.
Proof.
  intros H1 H2 Hv. rewrite set_slice_inside by assumption.
  rewrite !len_app. unfold len in *. rewrite length_firstn, length_skipn. lia.
Qed.

Lemma unpack_i_short b : (length b < 4)%nat -> unpack_i b = Raise StructError.
Proof.
  intro H. unfold unpack_i. destruct (Nat.eqb_spec (length b) 4); [lia|reflexivity].
Qed.

Lemma unpack_f_short b : (length b < 4)%nat -> unpack_f b = Raise StructError.
Proof.
  intro H. unfold unpack_f. destruct (Nat.eqb_spec (length b) 4); [lia|reflexivity].
Qed.

Lemma unpack_I_short b : (length b < 4)%nat -> unpack_I b = Raise StructError.
Proof.
  intro H. unfold unpack_I. destruct (Nat.eqb_spec (length b) 4); [lia|reflexivity].
Qed.

(** ** Field offsets *)

Lemma token_nonempty (s : string) : encode s ++ [x00] <> [].
Proof. destruct (encode s); discriminate. Qed.

Lemma lit_token_nonempty (s : string) : lit s ++ [x00] <> [].
Proof. destruct (lit s); discriminate. Qed.

Lemma str_len_nonneg s : 0 <= str_len s.
Proof. unfold str_len. lia. Qed.

Lemma find_property_offset_range d name ty :
  _find_property_offset d name ty = -1 \/ 25 <= _find_property_offset d name ty.
Proof.
  unfold _find_property_offset.
  destruct (find_range _ (token_nonempty name) d) as [H|[H _]].
  - rewrite H. left. reflexivity.
  - destruct (Z.eqb_spec (find d (encode name ++ [x00])) (-1)) as [E|_]; [lia|].
    right. pose proof (str_len_nonneg name).
    destruct (String.eqb ty "float");
      [change (len (lit "FloatProperty" ++ [x00])) with 14
      |change (len (lit "IntProperty" ++ [x00])) with 12]; lia.
Qed.

Lemma find_weapon_offset_range d name :
  _find_weapon_offset d name = -1 \/ 1 <= _find_weapon_offset d name.
Proof.
  unfold _find_weapon_offset.
  destruct (find_range _ (token_nonempty name) d) as [H|[H _]].
  - rewrite H. left. reflexivity.
  - destruct (Z.eqb_spec (find d (encode name ++ [x00])) (-1)) as [E|_]; [lia|].
    right. pose proof (str_len_nonneg name). lia.
Qed.

Lemma find_item_quantity_offset_range d name :
  _find_item_quantity_offset d name = -1 \/ 34 <= _find_item_quantity_offset d name.
Proof.
  unfold _find_item_quantity_offset.
  destruct (find_range _ (token_nonempty name) d) as [H|[H _]].
  - rewrite H. left. reflexivity.
  - destruct (Z.eqb_spec (find d (encode name ++ [x00])) (-1)) as [E|_]; [lia|].
    destruct (find_in_spec _ (lit_token_nonempty "Quantity") d
                (find d (encode name ++ [x00]))
                (find d (encode name ++ [x00]) + 100) ltac:(lia) ltac:(lia))
      as [[Hq _]|[q [Hq _]]]; rewrite Hq.
    + left. reflexivity.
    + destruct (Z.eqb_spec (Z.of_nat q) (-1)); [lia|]. right. lia.
Qed.

(** C1. The typed-scalar-property lookup: when the name token (the encoded
    property name followed by a zero byte) does not occur in the payload the
    result is the not-found value [-1]; otherwise, with [pos] the first
    occurrence of the token, it is
    [pos + len(name) + 1 + len(type name) + 1 + 4 + 8], the type name being
    [FloatProperty] for the [float] data type and [IntProperty] otherwise. *)
Theorem find_property_offset_spec (d : bytes) (name data_type : string) :
  let token := encode name ++ [x00] in
  let type_name :=
    if String.eqb data_type "float" then "FloatProperty"%string
    else "IntProperty"%string in
  (absent token d /\ _find_property_offset d name data_type = -1) \/
  (exists pos : nat,
      first_occurrence token d pos /\
      _find_property_offset d name data_type =
      Z.of_nat pos + str_len name + 1 + str_len type_name + 1 + 4 + 8).
Proof.
  intros token type_name. unfold _find_property_offset. fold token.
  destruct (find_spec token (token_nonempty name) d) as [[H A]|[k [H F]]];
    rewrite H.
  - left. split; [assumption|reflexivity].
  - right. exists k. split; [assumption|].
    destruct (Z.eqb_spec (Z.of_nat k) (-1)); [lia|].
    subst type_name. destruct (String.eqb data_type "float");
      [change (len (lit "FloatProperty" ++ [x00])) with 14;
       change (str_len "FloatProperty") with 13
      |change (len (lit "IntProperty" ++ [x00])) with 12;
       change (str_len "IntProperty") with 11]; lia.
Qed.

(** ** Item quantities *)

Lemma find_item_quantity_offset_lookup d name :
  item_lookup d name (_find_item_quantity_offset d name).
Proof.
  unfold item_lookup, _find_item_quantity_offset.
  set (token := encode name ++ [x00]). set (quantity := lit "Quantity" ++ [x00]).
  destruct (find_spec token (token_nonempty name) d) as [[H A]|[pos [H F]]];
    rewrite H.
  - left. split; [assumption|reflexivity].
  - right. exists pos. split; [assumption|].
    destruct (Z.eqb_spec (Z.of_nat pos) (-1)); [lia|].
    destruct (find_in_spec quantity (lit_token_nonempty "Quantity") d
                (Z.of_nat pos) (Z.of_nat pos + 100) ltac:(lia) ltac:(lia))
      as [[Hq N]|[q [Hq Fq]]]; rewrite Hq;
      replace (Z.to_nat (Z.min (Z.of_nat pos + 100) (len d)))
        with (Nat.min (pos + 100) (length d)) in * by (unfold len; lia);
      rewrite Nat2Z.id in *.
    + left. split; [assumption|reflexivity].
    + right. exists q. destruct (Z.eqb_spec (Z.of_nat q) (-1)); [lia|].
      split; [assumption|reflexivity].
Qed.

(** C3. The item-quantity lookup searches the first occurrence of the item
    name followed by a zero byte, then the first occurrence of [Quantity]
    followed by a zero byte lying within the 100 bytes from that match (and
    within the payload), and yields the offset 34 bytes after the start of
    that token, or [-1] when either search misses.  When the lookup misses,
    or when the offset plus 4 exceeds the length of the payload, reading
    yields [None] and writing yields [False] and leaves the payload as it
    is; otherwise reading decodes, and writing replaces, exactly the four
    bytes at the offset. *)
Theorem item_quantity_guarded (d : bytes) (name : string) :
  let off := _find_item_quantity_offset d name in
  item_lookup d name off /\
  (off = -1 \/ len d < off + 4 ->
   get_item_quantity d name = Ok None /\
   forall amount, set_item_quantity d name amount = Ok (false, d)) /\
  (off <> -1 -> off + 4 <= len d ->
   let at_off := firstn 4 (skipn (Z.to_nat off) d) in
   length at_off = 4%nat /\
   get_item_quantity d name = (v <- unpack_i at_off ;; Ok (Some v)) /\
   forall amount,
     set_item_quantity d name amount =
     (b <- pack_i amount ;;
      Ok (true, firstn (Z.to_nat off) d ++ b ++ skipn (Z.to_nat off + 4) d))).
Proof.
  intro off. split; [apply find_item_quantity_offset_lookup|].
  pose proof (find_item_quantity_offset_range d name) as R. fold off in R.
  unfold get_item_quantity, set_item_quantity. fold off. split.
  - intros [E|E].
    + rewrite E. split; reflexivity.
    + destruct (Z.leb_spec (off + 4) (len d)); [lia|].
      rewrite andb_false_r. split; reflexivity.
  - intros Hne Hin. destruct R as [R|R]; [contradiction|].
    destruct (Z.gtb_spec off 0); [|lia].
    destruct (Z.leb_spec (off + 4) (len d)); [|lia]. cbn [andb].
    rewrite slice_inside by lia.
    replace (Z.to_nat (off + 4 - off)) with 4%nat by lia.
    split; [|split].
    + rewrite length_firstn, length_skipn. unfold len in *. lia.
    + reflexivity.
    + intro amount. destruct (pack_i amount) as [b|e]; [|reflexivity].
      unfold bind. rewrite set_slice_inside by lia.
      replace (Z.to_nat (off + 4)) with (Z.to_nat off + 4)%nat by lia.
      reflexivity.
Qed.

(** An instance of [item_quantity_guarded]: an item name 30 bytes before
    the end of the payload. *)
Lemma item_quantity_guarded_witness :
  get_item_quantity (lit "HealthDrink" ++ [x00] ++ lit "Quantity" ++ [x00]
                       ++ repeat x00 9) "HealthDrink" = Ok None.
Proof.
  apply (item_quantity_guarded
           (lit "HealthDrink" ++ [x00] ++ lit "Quantity" ++ [x00] ++ repeat x00 9)
           "HealthDrink").
  right. vm_compute. reflexivity.
Defined.

(** ** Unchecked reads *)

(** C9. [get_health] and [get_weapon_ammo] do not check the offset against
    the length of the payload: when the name token is found and the offset
    plus 4 exceeds the length, the slice decoded has fewer than 4 bytes and
    the read raises [struct.error]; [get_item_quantity] yields [None]
    there. *)
Theorem unchecked_reads (d : bytes) :
  (let off := _find_property_offset d "HealthValue" "float" in
   off <> -1 -> len d < off + 4 ->
   (length (slice d off (off + 4)) < 4)%nat /\
   get_health d = Raise StructError) /\
  (forall weapon_name,
      let off := _find_weapon_offset d weapon_name in
      off <> -1 -> len d < off + 4 ->
      (length (slice d off (off + 4)) < 4)%nat /\
      get_weapon_ammo d weapon_name = Raise StructError) /\
  (forall item_name,
      let off := _find_item_quantity_offset d item_name in
      off <> -1 -> len d < off + 4 ->
      get_item_quantity d item_name = Ok None).
Proof.
  split; [|split].
  - intros off Hne Hlen.
    destruct (find_property_offset_range d "HealthValue" "float") as [R|R];
      fold off in R; [contradiction|].
    pose proof (short_slice d off 4 ltac:(lia) ltac:(lia) Hlen) as S.
    split; [exact S|]. unfold get_health. fold off.
    destruct (Z.gtb_spec off 0); [|lia].
    rewrite unpack_f_short by exact S. reflexivity.
  - intros w off Hne Hlen.
    destruct (find_weapon_offset_range d w) as [R|R];
      fold off in R; [contradiction|].
    pose proof (short_slice d off 4 ltac:(lia) ltac:(lia) Hlen) as S.
    split; [exact S|]. unfold get_weapon_ammo. fold off.
    destruct (Z.gtb_spec off 0); [|lia].
    rewrite unpack_i_short by exact S. reflexivity.
  - intros it off Hne Hlen.
    apply (item_quantity_guarded d it). right. exact Hlen.
Qed.

(** An instance of [unchecked_reads]: payloads that end two bytes into
    the value. *)
Lemma unchecked_reads_witness :
  get_health (lit "HealthValue" ++ [x00] ++ lit "FloatProperty" ++ [x00]
                ++ repeat x00 14) = Raise StructError /\
  get_weapon_ammo (lit "Pistol" ++ [x00; x0c; x00]) "Pistol" = Raise StructError.
Proof.
  split.
  - apply (unchecked_reads
             (lit "HealthValue" ++ [x00] ++ lit "FloatProperty" ++ [x00]
                ++ repeat x00 14)); vm_compute; [discriminate|reflexivity].
  - apply (unchecked_reads (lit "Pistol" ++ [x00; x0c; x00]));
      vm_compute; [discriminate|reflexivity].
Defined.

(** ** Writes *)

Lemma same_outside_upto a n d d' m :
  same_outside a n d d' -> (m <= a)%nat -> agree_upto m d d'.
Proof. intros [_ H] Hm i Hi. apply H. lia. Qed.

(** A write whose offset is not beyond the end of the payload. *)
Lemma set_slice_at d off v :
  0 <= off <= len d -> length v = 4%nat ->
  set_slice d off (off + 4) v =
  firstn (Z.to_nat off) d ++ v ++ skipn (Z.to_nat (Z.min (off + 4) (len d))) d.
Proof.
  intros H Hv. unfold set_slice. rewrite !adjust_nonneg by lia.
  rewrite (Z.min_l off) by lia. rewrite Z.max_r by lia. reflexivity.
Qed.

Lemma set_slice_agree_upto d off v :
  0 <= off <= len d -> length v = 4%nat ->
  agree_upto (Z.to_nat off) d (set_slice d off (off + 4) v).
Proof.
  intros H Hv i Hi. rewrite set_slice_at by assumption.
  rewrite nth_error_app1 by (rewrite length_firstn; unfold len in *; lia).
  rewrite nth_error_firstn. destruct (Nat.ltb_spec i (Z.to_nat off)); [reflexivity|lia].
Qed.

Lemma slice_set_slice d off v :
  0 <= off <= len d -> length v = 4%nat ->
  slice (set_slice d off (off + 4) v) off (off + 4) = v.
Proof.
  intros H Hv. rewrite set_slice_at by assumption.
  set (r := skipn _ d).
  assert (Hf : length (firstn (Z.to_nat off) d) = Z.to_nat off)
    by (rewrite length_firstn; unfold len in *; lia).
  rewrite slice_inside;
    [|lia|rewrite !len_app; unfold len; rewrite Hf, Hv; lia].
  replace (Z.to_nat (off + 4 - off)) with (length v) by lia.
  rewrite <- Hf at 1. rewrite skipn_app, Nat.sub_diag, skipn_all. simpl.
  rewrite firstn_app, Nat.sub_diag, firstn_all. simpl. apply app_nil_r.
Qed.

Lemma set_slice_same_outside d off v :
  0 <= off -> off + 4 <= len d -> length v = 4%nat ->
  same_outside (Z.to_nat off) 4 d (set_slice d off (off + 4) v).
Proof.
  intros H Hin Hv. rewrite set_slice_inside by lia.
  assert (Hf : length (firstn (Z.to_nat off) d) = Z.to_nat off)
    by (rewrite length_firstn; unfold len in *; lia).
  split.
  - rewrite !length_app, Hf, Hv, length_skipn. unfold len in *. lia.
  - intros i [Hi|Hi].
    + rewrite nth_error_app1 by lia. rewrite nth_error_firstn.
      destruct (Nat.ltb_spec i (Z.to_nat off)); [reflexivity|lia].
    + rewrite nth_error_app2 by lia. rewrite nth_error_app2 by lia.
      rewrite nth_error_skipn. f_equal. lia.
Qed.

Lemma slice_same_outside a n d d' s :
  same_outside a n d d' -> 0 <= s ->
  (Z.to_nat s + 4 <= a)%nat \/ (a + n <= Z.to_nat s)%nat ->
  slice d' s (s + 4) = slice d s (s + 4).
Proof.
  intros [Hlen Hout] Hs Hd. unfold slice, len. rewrite Hlen.
  set (lo := adjust _ s). set (hi := adjust _ (s + 4)).
  assert (Hlo : lo = Z.min s (Z.of_nat (length d))) by (apply adjust_nonneg; lia).
  assert (Hhi : hi = Z.min (s + 4) (Z.of_nat (length d))) by (apply adjust_nonneg; lia).
  apply nth_error_ext. intro i. rewrite !nth_error_firstn, !nth_error_skipn.
  destruct (Nat.ltb_spec i (Z.to_nat (hi - lo))); [|reflexivity].
  apply Hout. lia.
Qed.

(** Bytes a field write may change: none when the write fails, otherwise
    the four bytes at the offset, provided these lie inside the payload. *)
Lemma set_item_quantity_same_outside d name amount r d' :
  set_item_quantity d name amount = Ok (r, d') ->
  (r = false /\ d' = d) \/
  (r = true /\
   same_outside (Z.to_nat (_find_item_quantity_offset d name)) 4 d d').
Proof.
  unfold set_item_quantity.
  set (off := _find_item_quantity_offset d name).
  destruct (Z.gtb_spec off 0); cbn [andb];
    [destruct (Z.leb_spec (off + 4) (len d))|].
  - destruct (pack_i amount) as [b|e] eqn:E; [|discriminate].
    cbn [bind]. intro Hw. apply Ok_inj in Hw. inversion Hw; subst. right.
    split; [reflexivity|].
    apply set_slice_same_outside; try lia. eapply pack_i_length; eassumption.
  - intro Hw. apply Ok_inj in Hw. inversion Hw. left. split; reflexivity.
  - intro Hw. apply Ok_inj in Hw. inversion Hw. left. split; reflexivity.
Qed.

Lemma set_weapon_ammo_same_outside d name amount d' :
  set_weapon_ammo d name amount = Ok (true, d') ->
  _find_weapon_offset d name + 4 <= len d ->
  same_outside (Z.to_nat (_find_weapon_offset d name)) 4 d d'.
Proof.
  unfold set_weapon_ammo. set (off := _find_weapon_offset d name).
  destruct (Z.gtb_spec off 0); [|discriminate].
  destruct (pack_i amount) as [b|e] eqn:E; [|discriminate].
  cbn [bind]. intros Hw Hin. apply Ok_inj in Hw. inversion Hw; subst.
  apply set_slice_same_outside; try lia. eapply pack_i_length; eassumption.
Qed.

Lemma set_health_same_outside d value d' :
  set_health d value = Ok (true, d') ->
  _find_property_offset d "HealthValue" "float" + 4 <= len d ->
  same_outside (Z.to_nat (_find_property_offset d "HealthValue" "float")) 4 d d'.
Proof.
  unfold set_health. set (off := _find_property_offset d "HealthValue" "float").
  destruct (Z.gtb_spec off 0); [|discriminate].
  destruct (pack_f value) as [b|e] eqn:E; [|discriminate].
  cbn [bind]. intros Hw Hin. apply Ok_inj in Hw. inversion Hw; subst.
  apply set_slice_same_outside; try lia. eapply pack_f_length; eassumption.
Qed.

(** C4 (where the code departs from it). The weapon name [Pistol] followed
    by a zero byte and only two more bytes: [set_weapon_ammo] replaces the
    two bytes left by the four bytes of the value, and the payload grows
    from 9 to 11 bytes.  In the same way [set_health] appends the four
    bytes of the value to a payload that ends with the name token, which
    grows from 12 to 16 bytes.  [set_item_quantity] checks the offset and
    leaves such a payload as it is. *)
Theorem unchecked_write_grows :
  let d := lit "Pistol" ++ [x00; x0c; x00] in
  let h := lit "HealthValue" ++ [x00] in
  let q := lit "HealthDrink" ++ [x00] ++ lit "Quantity" ++ [x00] ++ repeat x00 9 in
  len d = 9 /\
  set_weapon_ammo d "Pistol" 999 =
    Ok (true, lit "Pistol" ++ [x00; xe7; x03; x00; x00]) /\
  len (lit "Pistol" ++ [x00; xe7; x03; x00; x00]) = 11 /\
  len h = 12 /\
  (exists h', set_health h 100%float = Ok (true, h') /\ len h' = 16) /\
  set_item_quantity q "HealthDrink" 3 = Ok (false, q).
Proof.
  cbv zeta. split; [|split; [|split; [|split; [|split]]]];
    try (vm_compute; reflexivity).
  eexists. split; [vm_compute; reflexivity|]. vm_compute. reflexivity.
Qed.

(** ** Lookups after a write *)

Section Stability.

Variable sub : bytes.
Hypothesis sub_nonempty : sub <> [].

Lemma first_occurrence_unique b k k' :
  first_occurrence sub b k -> first_occurrence sub b k' -> k = k'.
Proof.
  intros [H1 M1] [H2 M2].
  destruct (Nat.lt_trichotomy k k') as [L|[E|L]]; [|assumption|].
  - exfalso. apply (M2 k L H1).
  - exfalso. apply (M1 k' L H2).
Qed.

Lemma find_unique b k : first_occurrence sub b k -> find b sub = Z.of_nat k.
Proof.
  intro F. destruct (find_spec sub sub_nonempty b) as [[_ A]|[k' [H F']]].
  - exfalso. apply (A k). apply F.
  - rewrite H. f_equal. eapply first_occurrence_unique; eassumption.
Qed.

Lemma find_in_unique b start stop k :
  0 <= start -> 0 <= stop ->
  first_in sub b (Z.to_nat start) (Z.to_nat (Z.min stop (len b))) k ->
  find_in b sub start stop = Z.of_nat k.
Proof.
  intros Hs He F.
  destruct (find_in_spec sub sub_nonempty b start stop Hs He)
    as [[_ N]|[k' [H F']]].
  - exfalso. destruct F as (F1 & F2 & F3 & _). apply (N k F1 F2 F3).
  - rewrite H. f_equal.
    destruct F as (F1 & F2 & F3 & F4). destruct F' as (G1 & G2 & G3 & G4).
    destruct (Nat.lt_trichotomy k k') as [L|[E|L]]; [|congruence|].
    + exfalso. apply (G4 k); [lia|assumption].
    + exfalso. apply (F4 k'); [lia|assumption].
Qed.

Lemma occurs_at_agree b b' k n :
  agree_upto n b b' -> (k + length sub <= n)%nat ->
  occurs_at sub b k <-> occurs_at sub b' k.
Proof.
  intros A Hn. unfold occurs_at.
  split; intros H j Hj; specialize (H j Hj);
    [rewrite A by lia|rewrite <- A by lia]; assumption.
Qed.

Lemma first_occurrence_agree b b' k :
  agree_upto (k + length sub) b b' ->
  first_occurrence sub b k -> first_occurrence sub b' k.
Proof.
  intros A [H M]. split.
  - apply (occurs_at_agree b b' k _ A); [lia|assumption].
  - intros j Hj Hc. apply (M j Hj).
    apply (occurs_at_agree b b' j _ A); [lia|assumption].
Qed.

Lemma first_in_agree b b' lo hi k :
  agree_upto (k + length sub) b b' ->
  first_in sub b lo hi k -> first_in sub b' lo hi k.
Proof.
  intros A (H1 & H2 & H3 & H4). repeat split; try assumption.
  - apply (occurs_at_agree b b' k _ A); [lia|assumption].
  - intros j Hj Hc. apply (H4 j Hj).
    apply (occurs_at_agree b b' j _ A); [lia|assumption].
Qed.

End Stability.

Lemma agree_upto_le n m d d' : agree_upto n d d' -> (m <= n)%nat -> agree_upto m d d'.
Proof. intros A H i Hi. apply A. lia. Qed.

(** *** Name tokens *)

Lemma code_point_range c : 0 <= code_point c < 256.
Proof.
  unfold code_point. pose proof (N_ascii_bounded c). lia.
Qed.

Lemma length_encode_ascii s : is_ascii s = true -> len (encode s) = str_len s.
Proof.
  intro H. unfold len, str_len. f_equal.
  induction s as [|c s IH]; [reflexivity|].
  cbn [is_ascii] in H. apply andb_true_iff in H. destruct H as [Hc Hs].
  cbn [encode String.length]. unfold encode_char. rewrite Hc.
  cbn [app length]. rewrite IH by assumption. reflexivity.
Qed.

Lemma byte_of_Z_nonzero z : 0 < z < 256 -> byte_of_Z z <> x00.
Proof.
  intros H E. apply (f_equal Z_of_byte) in E. rewrite Z_of_byte_of_Z in E.
  rewrite Z.mod_small in E by lia. change (Z_of_byte x00) with 0 in E. lia.
Qed.

Lemma encode_no_nul s : has_nul s = false -> ~ In x00 (encode s).
Proof.
  induction s as [|c s IH]; simpl; [tauto|].
  rewrite orb_false_iff. intros [Hc Hs] Hin.
  apply in_app_or in Hin. destruct Hin as [Hin|Hin]; [|apply (IH Hs Hin)].
  pose proof (code_point_range c) as R. apply Z.eqb_neq in Hc.
  unfold encode_char in Hin. destruct (Z.ltb_spec (code_point c) 128).
  - destruct Hin as [E|[]]. revert E. apply byte_of_Z_nonzero. lia.
  - assert (2 <= code_point c / 64 < 4)
      by (split; [apply Z.div_le_lower_bound|apply Z.div_lt_upper_bound]; lia).
    pose proof (Z.mod_pos_bound (code_point c) 64 ltac:(lia)).
    destruct Hin as [E|[E|[]]]; revert E; apply byte_of_Z_nonzero; lia.
Qed.

(** The lookups, read from an occurrence of the name token. *)
Lemma find_property_offset_found d name ty :
  _find_property_offset d name ty <> -1 ->
  exists pos, first_occurrence (encode name ++ [x00]) d pos.
Proof.
  unfold _find_property_offset.
  destruct (find_spec _ (token_nonempty name) d) as [[H _]|[k [H F]]]; rewrite H.
  - intro C. exfalso. apply C. reflexivity.
  - intros _. exists k. assumption.
Qed.

Lemma find_property_offset_at d name ty pos :
  first_occurrence (encode name ++ [x00]) d pos ->
  _find_property_offset d name ty =
  Z.of_nat pos + str_len name + 1 +
  len (if String.eqb ty "float" then lit "FloatProperty" ++ [x00]
       else lit "IntProperty" ++ [x00]) + 4 + 8.
Proof.
  intro F. unfold _find_property_offset.
  rewrite (find_unique _ (token_nonempty name) d pos F).
  destruct (Z.eqb_spec (Z.of_nat pos) (-1)); [lia|reflexivity].
Qed.

Lemma find_weapon_offset_found d name :
  _find_weapon_offset d name <> -1 ->
  exists pos, first_occurrence (encode name ++ [x00]) d pos.
Proof.
  unfold _find_weapon_offset.
  destruct (find_spec _ (token_nonempty name) d) as [[H _]|[k [H F]]]; rewrite H.
  - intro C. exfalso. apply C. reflexivity.
  - intros _. exists k. assumption.
Qed.

Lemma find_weapon_offset_at d name pos :
  first_occurrence (encode name ++ [x00]) d pos ->
  _find_weapon_offset d name = Z.of_nat pos + str_len name + 1.
Proof.
  intro F. unfold _find_weapon_offset.
  rewrite (find_unique _ (token_nonempty name) d pos F).
  destruct (Z.eqb_spec (Z.of_nat pos) (-1)); [lia|reflexivity].
Qed.

Lemma find_item_quantity_offset_found d name :
  _find_item_quantity_offset d name <> -1 ->
  exists pos q,
    first_occurrence (encode name ++ [x00]) d pos /\
    first_in (lit "Quantity" ++ [x00]) d pos (Nat.min (pos + 100) (length d)) q.
Proof.
  intro Hne. destruct (find_item_quantity_offset_lookup d name) as [[_ E]|[pos [F Q]]].
  - contradiction.
  - exists pos. destruct Q as [[_ E]|[q [Fq E]]]; [contradiction|].
    exists q. split; assumption.
Qed.

Lemma find_item_quantity_offset_at d name pos q :
  first_occurrence (encode name ++ [x00]) d pos ->
  first_in (lit "Quantity" ++ [x00]) d pos (Nat.min (pos + 100) (length d)) q ->
  _find_item_quantity_offset d name = Z.of_nat q + 34.
Proof.
  intros F Fq. unfold _find_item_quantity_offset.
  rewrite (find_unique _ (token_nonempty name) d pos F).
  destruct (Z.eqb_spec (Z.of_nat pos) (-1)); [lia|].
  rewrite (find_in_unique _ (lit_token_nonempty "Quantity") d _ _ q).
  - destruct (Z.eqb_spec (Z.of_nat q) (-1)); [lia|reflexivity].
  - lia.
  - lia.
  - rewrite Nat2Z.id.
    replace (Z.to_nat (Z.min (Z.of_nat pos + 100) (len d)))
      with (Nat.min (pos + 100) (length d)) by (unfold len; lia).
    assumption.
Qed.

Lemma health_offset_at d pos :
  first_occurrence (encode "HealthValue" ++ [x00]) d pos ->
  _find_property_offset d "HealthValue" "float" = Z.of_nat pos + 38.
Proof.
  intro F. rewrite (find_property_offset_at d _ _ pos F).
  change (str_len "HealthValue") with 11.
  change (len (if String.eqb "float" "float" then lit "FloatProperty" ++ [x00]
               else lit "IntProperty" ++ [x00])) with 14.
  lia.
Qed.

Lemma pack_i_ok z : - 2 ^ 31 <= z < 2 ^ 31 -> pack_i z = Ok (le_bytes 4 z).
Proof.
  intro H. unfold pack_i.
  destruct (Z.leb_spec (- 2 ^ 31) z); [|lia].
  destruct (Z.ltb_spec z (2 ^ 31)); [|lia]. reflexivity.
Qed.

(** An item name without a zero character ends before the zero byte of
    the [Quantity] token found from it. *)
Lemma token_before_quantity d name pos q :
  has_nul name = false ->
  occurs_at (encode name ++ [x00]) d pos ->
  occurs_at (lit "Quantity" ++ [x00]) d q ->
  (pos <= q)%nat ->
  (pos + length (encode name ++ [x00]) <= q + 9)%nat.
Proof.
  intros Hn Ht Hq Hle. rewrite length_app. cbn [length].
  destruct (Nat.le_gt_cases (pos + length (encode name)) (q + 8)) as [|Hlt]; [lia|].
  exfalso. apply (encode_no_nul name Hn).
  specialize (Hq 8%nat ltac:(simpl; lia)).
  specialize (Ht (q + 8 - pos)%nat ltac:(rewrite length_app; simpl; lia)).
  replace (pos + (q + 8 - pos))%nat with (q + 8)%nat in Ht by lia.
  rewrite Hq in Ht.
  change (nth_error (lit "Quantity" ++ [x00]) 8) with (Some x00) in Ht.
  rewrite nth_error_app1 in Ht by lia.
  symmetry in Ht. apply nth_error_In in Ht. assumption.
Qed.

(** ** Reading a field after writing it *)

(** C5 (as the code has it). Reading a field after writing it with [v]
    yields [v], when the lookup of the field succeeds and the four bytes
    at its offset lie inside the payload,
    - for the health, if [v] is a binary32 value (packing it with [<f]
      succeeds and unpacking the result yields [v]);
    - for the ammunition of a weapon whose name is ASCII, if [v] is in the
      signed 32-bit range;
    - for the quantity of an item whose name has no zero character, if [v]
      is in the signed 32-bit range. *)
Theorem read_after_write (d : bytes) :
  (forall v b,
      let off := _find_property_offset d "HealthValue" "float" in
      off <> -1 -> off + 4 <= len d ->
      pack_f v = Ok b -> unpack_f b = Ok v ->
      exists d', set_health d v = Ok (true, d') /\
                 get_health d' = Ok (Some v)) /\
  (forall weapon_name v,
      let off := _find_weapon_offset d weapon_name in
      off <> -1 -> off + 4 <= len d ->
      is_ascii weapon_name = true ->
      - 2 ^ 31 <= v < 2 ^ 31 ->
      exists d', set_weapon_ammo d weapon_name v = Ok (true, d') /\
                 get_weapon_ammo d' weapon_name = Ok (Some v)) /\
  (forall item_name v,
      let off := _find_item_quantity_offset d item_name in
      off <> -1 -> off + 4 <= len d ->
      has_nul item_name = false ->
      - 2 ^ 31 <= v < 2 ^ 31 ->
      exists d', set_item_quantity d item_name v = Ok (true, d') /\
                 get_item_quantity d' item_name = Ok (Some v)).
Proof.
  split; [|split].
  - intros v b off Hne Hin Hp Hu.
    destruct (find_property_offset_range d "HealthValue" "float") as [R|R];
      fold off in R; [contradiction|].
    destruct (find_property_offset_found _ _ _ Hne) as [pos F].
    pose proof (health_offset_at d pos F) as E. fold off in E.
    pose proof (pack_f_length _ _ Hp) as Lb.
    exists (set_slice d off (off + 4) b). split.
    + unfold set_health. fold off. destruct (Z.gtb_spec off 0); [|lia].
      rewrite Hp. reflexivity.
    + assert (F' : first_occurrence (encode "HealthValue" ++ [x00])
                     (set_slice d off (off + 4) b) pos).
      { apply (first_occurrence_agree _ d); [|assumption].
        eapply agree_upto_le; [apply set_slice_agree_upto; [lia|assumption]|].
        simpl length. lia. }
      unfold get_health. rewrite (health_offset_at _ pos F'), <- E.
      destruct (Z.gtb_spec off 0); [|lia].
      rewrite slice_set_slice by (try assumption; lia). rewrite Hu. reflexivity.
  - intros w v off Hne _ Ha Hv.
    destruct (find_weapon_offset_found _ _ Hne) as [pos F].
    pose proof (find_weapon_offset_at d w pos F) as E. fold off in E.
    pose proof (occurs_at_bound _ d pos (token_nonempty w) (proj1 F)) as B.
    pose proof (length_encode_ascii w Ha) as La.
    pose proof (str_len_nonneg w).
    assert (Lt : Z.of_nat (length (encode w ++ [x00])) = str_len w + 1)
      by (rewrite length_app; unfold len in La; simpl length; lia).
    pose proof (pack_i_ok v Hv) as Hp.
    pose proof (pack_i_length _ _ Hp) as Lb.
    exists (set_slice d off (off + 4) (le_bytes 4 v)). split.
    + unfold set_weapon_ammo. fold off. destruct (Z.gtb_spec off 0); [|lia].
      rewrite Hp. reflexivity.
    + assert (F' : first_occurrence (encode w ++ [x00])
                     (set_slice d off (off + 4) (le_bytes 4 v)) pos).
      { apply (first_occurrence_agree _ d); [|assumption].
        eapply agree_upto_le;
          [apply set_slice_agree_upto; [unfold len; lia|assumption]|lia]. }
      unfold get_weapon_ammo. rewrite (find_weapon_offset_at _ w pos F'), <- E.
      destruct (Z.gtb_spec off 0); [|lia].
      rewrite slice_set_slice by (try assumption; unfold len; lia).
      rewrite (unpack_pack_i _ _ Hp). reflexivity.
  - intros it v off Hne Hin Hn Hv.
    destruct (find_item_quantity_offset_found _ _ Hne) as (pos & q & F & Fq).
    pose proof (find_item_quantity_offset_at d it pos q F Fq) as E. fold off in E.
    pose proof (token_before_quantity d it pos q Hn (proj1 F)
                  (proj1 (proj2 (proj2 Fq))) (proj1 Fq)) as T.
    pose proof (pack_i_ok v Hv) as Hp.
    pose proof (pack_i_length _ _ Hp) as Lb.
    pose proof (set_slice_same_outside d off (le_bytes 4 v) ltac:(lia) Hin Lb)
      as S.
    set (d' := set_slice d off (off + 4) (le_bytes 4 v)) in *.
    assert (Ld : length d' = length d) by apply S.
    exists d'. split.
    + unfold set_item_quantity. fold off. destruct (Z.gtb_spec off 0); [|lia].
      destruct (Z.leb_spec (off + 4) (len d)); [|lia]. cbn [andb].
      rewrite Hp. reflexivity.
    + assert (F' : first_occurrence (encode it ++ [x00]) d' pos).
      { apply (first_occurrence_agree _ d); [|assumption].
        eapply same_outside_upto; [exact S|lia]. }
      assert (Fq' : first_in (lit "Quantity" ++ [x00]) d' pos
                      (Nat.min (pos + 100) (length d')) q).
      { rewrite Ld. apply (first_in_agree _ d); [|assumption].
        eapply same_outside_upto; [exact S|simpl length; lia]. }
      unfold get_item_quantity.
      rewrite (find_item_quantity_offset_at d' it pos q F' Fq'), <- E.
      destruct (Z.gtb_spec off 0); [|lia].
      destruct (Z.leb_spec (off + 4) (len d')); [|unfold len in *; lia].
      cbn [andb]. unfold d'.
      rewrite slice_set_slice by (try assumption; lia).
      rewrite (unpack_pack_i _ _ Hp). reflexivity.
Qed.

(** Instances of [read_after_write]: the health 100.0 written over 75.0,
    999 rounds written over 12, and the quantity 3 written 34 bytes after
    the start of the [Quantity] token. *)
Lemma read_after_write_witness :
  (exists d',
      set_health (lit "HealthValue" ++ [x00] ++ lit "FloatProperty" ++ [x00]
                    ++ repeat x00 12 ++ [x00; x00; x96; x42]) 100%float
      = Ok (true, d') /\
      get_health d' = Ok (Some 100%float)) /\
  (exists d',
      set_weapon_ammo (lit "Pistol" ++ [x00; x0c; x00; x00; x00]) "Pistol" 999
      = Ok (true, d') /\
      get_weapon_ammo d' "Pistol" = Ok (Some 999)) /\
  (exists d',
      set_item_quantity (lit "HealthDrink" ++ [x00] ++ lit "Quantity" ++ [x00]
                           ++ repeat x00 25 ++ [x00; x00; x00; x00])
        "HealthDrink" 3
      = Ok (true, d') /\
      get_item_quantity d' "HealthDrink" = Ok (Some 3)).
Proof.
  split; [|split].
  - apply (proj1 (read_after_write _) 100%float [x00; x00; xc8; x42]);
      vm_compute; try split; solve [reflexivity | intro; discriminate].
  - apply (proj1 (proj2 (read_after_write _)));
      vm_compute; try split; solve [reflexivity | intro; discriminate].
  - apply (proj2 (proj2 (read_after_write _)));
      vm_compute; try split; solve [reflexivity | intro; discriminate].
Defined.

(** Where reading after writing does not yield the value written. *)
Lemma read_after_write_counterexample :
  let d := lit "HealthValue" ++ [x00] ++ lit "FloatProperty" ++ [x00]
             ++ repeat x00 12 ++ [x00; x00; x96; x42] in
  let d' := lit "HealthValue" ++ [x00] ++ lit "FloatProperty" ++ [x00]
              ++ repeat x00 12 ++ [xcd; xcc; xcc; x3d] in
  let tenth := 0x1.999999999999ap-4%float in
  let eacute := String (ascii_of_nat 233) EmptyString in
  let quantity_name :=
    ("Quantity" ++ String (ascii_of_nat 0) "AAAAAAAAAAAAAAAAAAAAAAAAAAAAAA")%string in
  (* a health that is not a binary32 value *)
  (get_health d = Ok (Some 75%float) /\
   set_health d tenth = Ok (true, d') /\
   get_health d' = Ok (Some 0x1.99999ap-4%float) /\
   get_health d' <> Ok (Some tenth)) /\
  (* a count outside the signed 32-bit range *)
  set_weapon_ammo (lit "Pistol" ++ [x00; x0c; x00; x00; x00]) "Pistol" (2 ^ 31)
  = Raise StructError /\
  (* a health whose offset is beyond the end of the payload *)
  (set_health (lit "HealthValue" ++ [x00]) 100%float
   = Ok (true, lit "HealthValue" ++ [x00; x00; x00; xc8; x42]) /\
   get_health (lit "HealthValue" ++ [x00; x00; x00; xc8; x42])
   = Raise StructError) /\
  (* a weapon name that is not ASCII: the value overwrites the token *)
  (get_weapon_ammo (encode eacute ++ [x00; x0c; x00; x00; x00; x00; x00; x00])
     eacute = Ok (Some 3072) /\
   set_weapon_ammo (encode eacute ++ [x00; x0c; x00; x00; x00; x00; x00; x00])
     eacute 5
   = Ok (true, encode eacute ++ [x05; x00; x00; x00; x00; x00; x00; x00]) /\
   get_weapon_ammo (encode eacute ++ [x05; x00; x00; x00; x00; x00; x00; x00])
     eacute = Ok None) /\
  (* an item name with a zero character: the value overwrites the name *)
  (exists q',
      set_item_quantity (encode quantity_name ++ [x00; x00]) quantity_name 7
      = Ok (true, q') /\
      get_item_quantity q' quantity_name = Ok None).
Proof.
  cbv zeta. split; [|split; [|split; [|split]]].
  - split; [|split; [|split]]; try (vm_compute; reflexivity).
    intro H.
    assert (N : match get_health (lit "HealthValue" ++ [x00] ++ lit "FloatProperty"
                                    ++ [x00] ++ repeat x00 12 ++ [xcd; xcc; xcc; x3d])
                with
                | Ok (Some x) => PrimFloat.eqb x 0x1.999999999999ap-4
                | _ => true
                end = false) by (vm_compute; reflexivity).
    rewrite H in N. cbv beta iota in N.
    assert (T : PrimFloat.eqb 0x1.999999999999ap-4 0x1.999999999999ap-4 = true)
      by (vm_compute; reflexivity).
    rewrite T in N. discriminate N.
  - vm_compute. reflexivity.
  - split; vm_compute; reflexivity.
  - split; [|split]; vm_compute; reflexivity.
  - eexists. split; [vm_compute; reflexivity|]. vm_compute. reflexivity.
Qed.

(** ** Fields *)

Lemma offset_of_range f d : offset_of f d = -1 \/ 1 <= offset_of f d.
Proof.
  destruct f as [|w|i]; simpl.
  - destruct (find_property_offset_range d "HealthValue" "float"); [tauto|lia].
  - apply find_weapon_offset_range.
  - destruct (find_item_quantity_offset_range d i); [tauto|lia].
Qed.

(** [read] in terms of the offset. *)
Lemma read_at f d :
  read d f =
  let off := offset_of f d in
  match f with
  | Health =>
      if off >? 0 then v <- unpack_f (slice d off (off + 4)) ;; Ok (Some (VFloat v))
      else Ok None
  | WeaponAmmo _ =>
      if off >? 0 then v <- unpack_i (slice d off (off + 4)) ;; Ok (Some (VInt v))
      else Ok None
  | ItemQuantity _ =>
      if (off >? 0) && (off + 4 <=? len d)
      then v <- unpack_i (slice d off (off + 4)) ;; Ok (Some (VInt v))
      else Ok None
  end.
Proof.
  destruct f as [|w|i]; cbn [read offset_of]; cbv zeta.
  - unfold get_health. destruct (_ >? 0); [|reflexivity].
    destruct (unpack_f _); reflexivity.
  - unfold get_weapon_ammo. destruct (_ >? 0); [|reflexivity].
    destruct (unpack_i _); reflexivity.
  - unfold get_item_quantity. destruct (_ && _); [|reflexivity].
    destruct (unpack_i _); reflexivity.
Qed.

Lemma write_same_outside d f v d' :
  write d f v = Ok (true, d') -> offset_of f d + 4 <= len d ->
  same_outside (Z.to_nat (offset_of f d)) 4 d d'.
Proof.
  destruct f as [|w|i]; cbn [write offset_of]; intros Hw Hin.
  - apply (set_health_same_outside d v); assumption.
  - apply (set_weapon_ammo_same_outside d w v); assumption.
  - destruct (set_item_quantity_same_outside d i v true d' Hw) as [[C _]|[_ S]];
      [discriminate|assumption].
Qed.

Lemma write_true_offset d f v d' :
  write d f v = Ok (true, d') -> 1 <= offset_of f d.
Proof.
  destruct f as [|w|i]; cbn [write offset_of];
    unfold set_health, set_weapon_ammo, set_item_quantity;
    match goal with |- context [?o >? 0] => destruct (Z.gtb_spec o 0) end;
    try lia; cbn [andb]; discriminate.
Qed.

(** A read depends on the offset, on the length and on the four bytes at
    the offset. *)
Lemma read_same a d d' f :
  same_outside a 4 d d' ->
  offset_of f d' = offset_of f d ->
  offset_of f d = -1 \/
  offset_of f d + 4 <= Z.of_nat a \/ Z.of_nat a + 4 <= offset_of f d ->
  read d' f = read d f.
Proof.
  intros S E D. rewrite !read_at. cbv zeta. rewrite E.
  assert (L : len d' = len d) by (unfold len; f_equal; apply S).
  rewrite L.
  destruct (offset_of_range f d) as [R|R].
  - rewrite R. destruct f; reflexivity.
  - assert (Sl : slice d' (offset_of f d) (offset_of f d + 4) =
                 slice d (offset_of f d) (offset_of f d + 4)).
    { apply (slice_same_outside a 4); [assumption|lia|lia]. }
    rewrite Sl. reflexivity.
Qed.

(** The lookup of a well-named field depends on the bytes before its
    offset only. *)
Lemma offset_stable a d d' f :
  same_outside a 4 d d' ->
  well_named f = true ->
  offset_of f d <> -1 -> offset_of f d <= Z.of_nat a ->
  offset_of f d' = offset_of f d.
Proof.
  intros S W Hne Hle. pose proof (same_outside_upto _ _ _ _ _ S (Nat.le_refl a)) as A.
  destruct f as [|w|i]; cbn [offset_of well_named] in *.
  - destruct (find_property_offset_found _ _ _ Hne) as [pos F].
    pose proof (health_offset_at d pos F) as E.
    rewrite E. apply health_offset_at.
    apply (first_occurrence_agree _ d); [|assumption].
    eapply agree_upto_le; [exact A|]. simpl length. lia.
  - destruct (find_weapon_offset_found _ _ Hne) as [pos F].
    pose proof (find_weapon_offset_at d w pos F) as E.
    pose proof (length_encode_ascii w W) as La.
    rewrite E. apply find_weapon_offset_at.
    apply (first_occurrence_agree _ d); [|assumption].
    eapply agree_upto_le; [exact A|].
    rewrite length_app. unfold len in La. simpl length. lia.
  - destruct (find_item_quantity_offset_found _ _ Hne) as (pos & q & F & Fq).
    pose proof (find_item_quantity_offset_at d i pos q F Fq) as E.
    apply negb_true_iff in W.
    pose proof (token_before_quantity d i pos q W (proj1 F)
                  (proj1 (proj2 (proj2 Fq))) (proj1 Fq)) as T.
    rewrite E. apply (find_item_quantity_offset_at d' i pos q).
    + apply (first_occurrence_agree _ d); [|assumption].
      eapply agree_upto_le; [exact A|]. lia.
    + replace (length d') with (length d) by (symmetry; apply S).
      apply (first_in_agree _ d); [|assumption].
      eapply agree_upto_le; [exact A|]. simpl length. lia.
Qed.

(** ** Non-interference *)

(** C6 (as the code has it). A write to a field [A] whose four bytes lie
    inside the payload keeps the length of the payload and every byte
    outside these four.  It leaves the read of a field [B] as it was
    - when [B] is well named, is found, and its value ends at or before the
      offset of [A] (its token and value lie before the bytes written), or
    - when the lookup of [B] yields the same offset after the write as
      before and the value of [B], if found, does not overlap the bytes
      written. *)
Theorem write_frame (d : bytes) (A : field) (v : value_of A) (d' : bytes) :
  write d A v = Ok (true, d') ->
  offset_of A d + 4 <= len d ->
  same_outside (Z.to_nat (offset_of A d)) 4 d d' /\
  forall B : field,
    (well_named B = true /\ offset_of B d <> -1 /\
     offset_of B d + 4 <= offset_of A d) \/
    (offset_of B d' = offset_of B d /\
     (offset_of B d = -1 \/
      offset_of B d + 4 <= offset_of A d \/
      offset_of A d + 4 <= offset_of B d)) ->
    read d' B = read d B.
Proof.
  intros Hw Hin. pose proof (write_same_outside d A v d' Hw Hin) as S.
  split; [exact S|]. intros B H.
  pose proof (write_true_offset d A v d' Hw) as Ha.
  apply (read_same (Z.to_nat (offset_of A d))); [exact S| |].
  - destruct H as [(W & Hne & Hb)|[E _]]; [|exact E].
    apply (offset_stable (Z.to_nat (offset_of A d))); try assumption. lia.
  - rewrite Z2Nat.id by lia. destruct H as [(_ & _ & Hb)|[_ D]]; tauto.
Qed.

(** An instance of [write_frame]: the pistol's rounds are written after
    the health, whose read is unchanged. *)
Lemma write_frame_witness :
  let d := lit "HealthValue" ++ [x00] ++ lit "FloatProperty" ++ [x00]
             ++ repeat x00 12 ++ [x00; x00; x96; x42]
             ++ lit "Pistol" ++ [x00; x0c; x00; x00; x00] in
  let d' := lit "HealthValue" ++ [x00] ++ lit "FloatProperty" ++ [x00]
              ++ repeat x00 12 ++ [x00; x00; x96; x42]
              ++ lit "Pistol" ++ [x00; xe7; x03; x00; x00] in
  read d' Health = read d Health.
Proof.
  cbv zeta.
  refine (proj2 (write_frame _ (WeaponAmmo "Pistol") 999 _ _ _) Health _).
  - vm_compute. reflexivity.
  - vm_compute. intro C. discriminate C.
  - left. split; [reflexivity|]. split.
    + vm_compute. intro C. discriminate C.
    + vm_compute. intro C. discriminate C.
Defined.

(** Where a write to one field changes the read of another. *)
Lemma write_frame_counterexample :
  let d := lit "Rifle" ++ [x00] ++ lit "Pistol" ++ [x00; x0c; x00; x00; x00] in
  let e := lit "Pistol" ++ [x00; x0c; x00; x00; x00]
             ++ lit "A" ++ [x00; x07; x00; x00; x00] in
  (* the rounds of the rifle are written over the name of the pistol *)
  (read d (WeaponAmmo "Pistol") = Ok (Some (VInt 12)) /\
   exists d',
     write d (WeaponAmmo "Rifle") 500 = Ok (true, d') /\
     len d' = len d /\
     read d' (WeaponAmmo "Pistol") = Ok None) /\
  (* the value written holds the name token of a field found after it *)
  (read e (WeaponAmmo "A") = Ok (Some (VInt 7)) /\
   exists e',
     write e (WeaponAmmo "Pistol") 65 = Ok (true, e') /\
     len e' = len e /\
     read e' (WeaponAmmo "A") = Ok (Some (VInt 4259840))).
Proof.
  cbv zeta. split; (split; [vm_compute; reflexivity|]).
  - eexists. split; [vm_compute; reflexivity|].
    split; vm_compute; reflexivity.
  - eexists. split; [vm_compute; reflexivity|].
    split; vm_compute; reflexivity.
Qed.

(** ** The container *)

Lemma slice_from_nat data (i : nat) n :
  0 <= n ->
  slice data (Z.of_nat i) (Z.of_nat i + n) = firstn (Z.to_nat n) (skipn i data).
Proof.
  intro Hn. unfold slice. rewrite !adjust_nonneg by lia.
  apply nth_error_ext. intro k. rewrite !nth_error_firstn, !nth_error_skipn.
  unfold len.
  destruct (Nat.ltb_spec k (Z.to_nat n));
    destruct (Nat.ltb_spec k (Z.to_nat (Z.min (Z.of_nat i + n) (Z.of_nat (length data))
                                        - Z.min (Z.of_nat i) (Z.of_nat (length data))))).
  - f_equal. lia.
  - symmetry. apply nth_error_None. lia.
  - lia.
  - reflexivity.
Qed.

Lemma is_signature_iff data (i : nat) :
  is_signature (slice data (Z.of_nat i) (Z.of_nat i + 2)) = true <-> sig_at data i.
Proof.
  rewrite slice_from_nat by lia. change (Z.to_nat 2) with 2%nat.
  unfold sig_at.
  assert (E0 : nth_error data i = nth_error (skipn i data) 0)
    by (rewrite nth_error_skipn; f_equal; lia).
  assert (E1 : nth_error data (i + 1) = nth_error (skipn i data) 1)
    by (rewrite nth_error_skipn; reflexivity).
  rewrite E0, E1. clear E0 E1.
  destruct (skipn i data) as [|a [|b r]]; simpl.
  - split; [discriminate|]. intros [H _]. discriminate.
  - split; [destruct a; discriminate|]. intros [_ [H|H]]; discriminate.
  - split.
    + destruct a; try discriminate. destruct b; try discriminate;
        destruct r; try discriminate; intros _; auto.
    + intros [Ha [Hb|Hb]]; injection Ha as ->; injection Hb as ->; reflexivity.
Qed.

Section ContainerProperties.

Variable compress : bytes -> bytes.
Variable decompress : bytes -> res bytes.

(** The loop of [load] over [lo, lo + n). *)
Lemma load_loop_none data lo n :
  (forall j, (lo <= j < lo + n)%nat -> ~ sig_at data j) ->
  load_loop decompress data (map Z.of_nat (seq lo n)) = Ok None.
Proof.
  revert lo. induction n as [|n IH]; intros lo H; [reflexivity|].
  cbn [seq map load_loop].
  destruct (is_signature _) eqn:E.
  - apply is_signature_iff in E. exfalso. apply (H lo); [lia|assumption].
  - apply IH. intros j Hj. apply H. lia.
Qed.

Lemma load_loop_first data lo n i :
  (lo <= i < lo + n)%nat -> sig_at data i ->
  (forall j, (lo <= j < i)%nat -> ~ sig_at data j) ->
  load_loop decompress data (map Z.of_nat (seq lo n)) =
  (ed <- load_at decompress data (Z.of_nat i) ;; Ok (Some ed)).
Proof.
  revert lo. induction n as [|n IH]; intros lo Hi Hs Hmin; [lia|].
  cbn [seq map load_loop].
  destruct (is_signature _) eqn:E.
  - apply is_signature_iff in E.
    destruct (Nat.eq_dec lo i) as [->|Hne]; [reflexivity|].
    exfalso. apply (Hmin lo); [lia|assumption].
  - destruct (Nat.eq_dec lo i) as [->|Hne].
    + apply is_signature_iff in Hs. congruence.
    + apply IH; [lia|assumption|]. intros j Hj. apply Hmin. lia.
Qed.

(** Either no stream header lies in the window, or there is a first. *)
Lemma signature_cases data n :
  (forall j, (j < n)%nat -> ~ sig_at data j) \/
  (exists i, (i < n)%nat /\ sig_at data i /\
             forall j, (j < i)%nat -> ~ sig_at data j).
Proof.
  induction n as [|n [IH|IH]].
  - left. intros j Hj. lia.
  - destruct (is_signature (slice data (Z.of_nat n) (Z.of_nat n + 2))) eqn:E.
    + right. exists n. apply is_signature_iff in E. auto.
    + left. intros j Hj Hc. destruct (Nat.eq_dec j n) as [->|Hne].
      * apply is_signature_iff in Hc. congruence.
      * apply (IH j); [lia|assumption].
  - right. destruct IH as (i & Hi & Hs & Hmin). exists i. auto.
Qed.

Lemma load_cases data :
  (no_signature data /\ load decompress data = Ok None) \/
  (exists i, first_signature data i /\
             load decompress data =
             (ed <- load_at decompress data (Z.of_nat i) ;; Ok (Some ed))).
Proof.
  unfold load, range. change (300 - 0)%nat with 300%nat.
  destruct (signature_cases data 300) as [N|(i & Hi & Hs & Hmin)].
  - left. split; [exact N|]. apply load_loop_none. intros j Hj. apply N. lia.
  - right. exists i. split; [split; [assumption|split; assumption]|].
    apply load_loop_first; [lia|assumption|]. intros j Hj. apply Hmin. lia.
Qed.

Lemma sig_at_bound data i : sig_at data i -> (i + 2 <= length data)%nat.
Proof.
  intros [_ H].
  assert (N : nth_error data (i + 1) <> None) by (destruct H as [H|H]; congruence).
  apply nth_error_Some in N. lia.
Qed.

(** A stream header in the first eight bytes: one of the two size slices
    has fewer than four bytes. *)
Lemma load_at_early data (i : nat) :
  sig_at data i -> (i < 8)%nat ->
  load_at decompress data (Z.of_nat i) = Raise StructError.
Proof.
  intros Hs Hi. pose proof (sig_at_bound _ _ Hs) as B. unfold load_at.
  set (cso := Z.of_nat i - 8).
  assert (L1 := length_slice data cso (cso + 4)).
  assert (L2 := length_slice data (cso + 4) (cso + 4 + 4)).
  replace (cso + 8) with (cso + 4 + 4) by lia.
  unfold adjust, len in L1, L2.
  destruct (Nat.le_gt_cases 4 i) as [Hge|Hlt].
  - rewrite unpack_I_short; [reflexivity|].
    destruct (Z.ltb_spec cso 0); destruct (Z.ltb_spec (cso + 4) 0); lia.
  - destruct (unpack_I (slice data cso (cso + 4))) as [cs|e] eqn:E1.
    + cbn [bind]. rewrite unpack_I_short; [reflexivity|].
      destruct (Z.ltb_spec (cso + 4) 0);
        destruct (Z.ltb_spec (cso + 4 + 4) 0); lia.
    + cbn [bind]. unfold unpack_I in E1.
      destruct (_ =? _)%nat; [discriminate|congruence].
Qed.

(** A stream header from the eighth byte on: the sizes are the two
    integers before it and the header is what precedes them. *)
Lemma load_at_late data (i : nat) :
  sig_at data i -> (8 <= i)%nat ->
  load_at decompress data (Z.of_nat i) =
  (payload <-
     decompress (firstn (Z.to_nat (u32_at data (i - 8))) (skipn i data)) ;;
   Ok {| save_data :=
           {| header := firstn (i - 8) data;
              size_info_offset := Z.of_nat i - 8;
              compression_offset := Z.of_nat i;
              sd_decompressed := payload;
              uncompressed_size := u32_at data (i - 4);
              compressed_size := u32_at data (i - 8) |};
         decompressed := payload |}).
Proof.
  intros Hs Hi. pose proof (sig_at_bound _ _ Hs) as B.
  assert (U : forall k, (k + 4 <= length data)%nat ->
                        unpack_I (slice data (Z.of_nat k) (Z.of_nat k + 4))
                        = Ok (u32_at data k)).
  { intros k Hk. rewrite slice_from_nat by lia. change (Z.to_nat 4) with 4%nat.
    unfold unpack_I. rewrite length_firstn, length_skipn.
    replace (Nat.min 4 (length data - k)) with 4%nat by lia. reflexivity. }
  unfold load_at.
  replace (Z.of_nat i - 8 + 8) with (Z.of_nat (i - 4) + 4) by lia.
  replace (Z.of_nat i - 8 + 4) with (Z.of_nat (i - 4)) by lia.
  replace (Z.of_nat (i - 4)) with (Z.of_nat (i - 8) + 4) at 1 by lia.
  replace (Z.of_nat i - 8) with (Z.of_nat (i - 8)) by lia.
  rewrite (U (i - 8)%nat) by lia. cbn [bind].
  rewrite (U (i - 4)%nat) by lia. cbn [bind].
  assert (P : 0 <= u32_at data (i - 8)) by apply le_value_range.
  rewrite slice_from_nat by assumption.
  unfold slice_to. rewrite adjust_nonneg by lia.
  replace (Z.to_nat (Z.min (Z.of_nat (i - 8)) (len data))) with (i - 8)%nat
    by (unfold len; lia).
  replace (Z.of_nat (i - 8)) with (Z.of_nat i - 8) by lia.
  reflexivity.
Qed.

(** A successful [load] found its stream header from the eighth byte
    on. *)
Lemma load_ok_inv data ed :
  load decompress data = Ok (Some ed) ->
  exists i, first_signature data i /\ (8 <= i)%nat /\
            load_at decompress data (Z.of_nat i) = Ok ed.
Proof.
  intro H. destruct (load_cases data) as [[_ E]|(i & F & E)]; [congruence|].
  exists i. split; [assumption|]. rewrite E in H.
  destruct (Nat.le_gt_cases 8 i) as [Hge|Hlt].
  - split; [assumption|].
    destruct (load_at decompress data (Z.of_nat i)); [|discriminate].
    cbn [bind] in H. congruence.
  - rewrite (load_at_early data i (proj1 (proj2 F)) Hlt) in H. discriminate.
Qed.

End ContainerProperties.

Lemma skipn_length_app {A : Type} (a b : list A) : skipn (length a) (a ++ b) = b.
Proof. rewrite skipn_app, skipn_all, Nat.sub_diag. reflexivity. Qed.

Lemma firstn_length_app {A : Type} (a b : list A) : firstn (length a) (a ++ b) = a.
Proof. rewrite firstn_app, firstn_all, Nat.sub_diag. simpl. apply app_nil_r. Qed.

Section Codec.

Variable compress : bytes -> bytes.
Variable decompress : bytes -> res bytes.

(** C2 (as the code has it). [load] looks for either stream header at the
    offsets 0 to 299.  When there is none it returns [False], whatever
    [zlib.decompress] does.  When the first is at an offset [i] of at
    least 8, the compressed size is the little-endian unsigned integer at
    [i - 8], the uncompressed size the one at [i - 4], the header the bytes
    before [i - 8], and the bytes decompressed are the compressed-size
    bytes from [i] on (those up to the end of the file when it has
    fewer). *)
Theorem load_spec (data : bytes) :
  (no_signature data /\ load decompress data = Ok None) \/
  (exists i : nat,
      first_signature data i /\
      ((8 <= i)%nat ->
       load decompress data =
       (payload <-
          decompress (firstn (Z.to_nat (u32_at data (i - 8))) (skipn i data)) ;;
        Ok (Some {| save_data :=
                      {| header := firstn (i - 8) data;
                         size_info_offset := Z.of_nat i - 8;
                         compression_offset := Z.of_nat i;
                         sd_decompressed := payload;
                         uncompressed_size := u32_at data (i - 4);
                         compressed_size := u32_at data (i - 8) |};
                    decompressed := payload |})))).
Proof.
  destruct (load_cases decompress data) as [H|(i & F & E)]; [left; exact H|].
  right. exists i. split; [exact F|]. intro Hi.
  rewrite E, (load_at_late decompress data i (proj1 (proj2 F)) Hi).
  destruct (decompress _); reflexivity.
Qed.

(** C10 (as the code has it). When the first stream header is at an offset
    [i] below 8, the index [i - 8] of the size fields is negative, one of
    the two slices taken for them has fewer than four bytes, and [load]
    raises [struct.error]: it neither returns [False] nor keeps sizes or a
    header. *)
Theorem load_early (data : bytes) (i : nat) :
  first_signature data i -> (i < 8)%nat ->
  Z.of_nat i - 8 < 0 /\ load decompress data = Raise StructError.
Proof.
  intros F Hi. split; [lia|].
  destruct (load_cases decompress data) as [[N _]|(k & Fk & E)].
  - exfalso. apply (N i); [apply F|apply F].
  - assert (k = i).
    { destruct F as (_ & Hs & Hmin). destruct Fk as (_ & Hs' & Hmin').
      destruct (Nat.lt_trichotomy k i) as [L|[L|L]]; [|assumption|].
      - exfalso. apply (Hmin k L Hs').
      - exfalso. apply (Hmin' i L Hs). }
    subst k. rewrite E, (load_at_early decompress data i (proj1 (proj2 F)) Hi).
    reflexivity.
Qed.

(** C8. For a loaded container and any payload whose length and whose
    compressed length fit in 32 bits, [save] writes the header of the
    loaded container (the bytes of the file before the size fields), the
    length of the compressed payload and the length of the payload as
    little-endian unsigned 32-bit integers, and the compressed payload. *)
Theorem save_layout (data : bytes) (ed : Editor) (payload : bytes) :
  load decompress data = Ok (Some ed) ->
  len payload < 2 ^ 32 ->
  len (compress payload) < 2 ^ 32 ->
  exists (i : nat) (cs us : bytes),
    first_signature data i /\ (8 <= i)%nat /\
    header (save_data ed) = firstn (i - 8) data /\
    length cs = 4%nat /\ le_value cs = len (compress payload) /\
    length us = 4%nat /\ le_value us = len payload /\
    save compress (with_payload ed payload) =
    Ok (firstn (i - 8) data ++ cs ++ us ++ compress payload).
Proof.
  intros L Hp Hc. destruct (load_ok_inv decompress data ed L) as (i & F & Hi & E).
  rewrite (load_at_late decompress data i (proj1 (proj2 F)) Hi) in E.
  destruct (decompress _) as [p|e]; [|discriminate]. cbn [bind] in E.
  apply Ok_inj in E. subst ed.
  exists i, (le_bytes 4 (len (compress payload))), (le_bytes 4 (len payload)).
  pose proof (len_nonneg payload). pose proof (len_nonneg (compress payload)).
  repeat (split; [solve [assumption | reflexivity | apply length_le_bytes
                        | rewrite le_value_le_bytes;
                          change (256 ^ Z.of_nat 4) with (2 ^ 32);
                          apply Z.mod_small; lia]|]).
  unfold save, with_payload. cbn [decompressed save_data header].
  rewrite !pack_I_ok by lia. reflexivity.
Qed.

(** A length that does not fit in 32 bits cannot be written. *)
Lemma save_too_large (ed : Editor) :
  2 ^ 32 <= len (compress (decompressed ed)) \/ 2 ^ 32 <= len (decompressed ed) ->
  save compress ed = Raise StructError.
Proof.
  assert (R : forall z, 2 ^ 32 <= z -> pack_I z = Raise StructError).
  { intros z Hz. unfold pack_I. destruct (Z.ltb_spec z (2 ^ 32)); [lia|].
    rewrite andb_false_r. reflexivity. }
  assert (E : forall z, pack_I z = Raise StructError \/ exists b, pack_I z = Ok b).
  { intro z. unfold pack_I. destruct (_ && _); eauto. }
  intros [H|H]; unfold save.
  - rewrite (R _ H). reflexivity.
  - destruct (E (len (compress (decompressed ed)))) as [E1|[b E1]]; rewrite E1.
    + reflexivity.
    + cbn [bind]. rewrite (R _ H). reflexivity.
Qed.

End Codec.

(** Instances and counterexamples with the stored codec. *)

Lemma first_signature_intro data i :
  (i < 300)%nat ->
  is_signature (slice data (Z.of_nat i) (Z.of_nat i + 2)) = true ->
  forallb (fun j => negb (is_signature (slice data (Z.of_nat j) (Z.of_nat j + 2))))
          (seq 0 i) = true ->
  first_signature data i.
Proof.
  intros Hi Hs Hb. split; [assumption|]. split; [apply is_signature_iff; assumption|].
  intros j Hj Hc. rewrite forallb_forall in Hb.
  specialize (Hb j ltac:(apply in_seq; lia)). apply is_signature_iff in Hc.
  rewrite Hc in Hb. discriminate.
Qed.

(** An instance of [load_spec]: the scenario of a header, the two sizes
    and a stream, here with a header of 3 bytes and a payload of 2. *)
Lemma load_spec_witness :
  exists ed,
    load stored_decompress
      ([x53; x48; x32] ++ [x04; x00; x00; x00] ++ [x02; x00; x00; x00]
         ++ [x78; xda; x41; x42]) = Ok (Some ed) /\
    compressed_size (save_data ed) = 4 /\
    uncompressed_size (save_data ed) = 2 /\
    header (save_data ed) = [x53; x48; x32] /\
    decompressed ed = [x41; x42].
Proof.
  destruct (load_spec stored_decompress
              ([x53; x48; x32] ++ [x04; x00; x00; x00] ++ [x02; x00; x00; x00]
                 ++ [x78; xda; x41; x42])) as [[N _]|(i & F & H)].
  - exfalso. apply (N 11%nat); [lia|]. apply is_signature_iff. reflexivity.
  - assert (i = 11%nat).
    { destruct F as (_ & Hs & Hmin).
      destruct (Nat.lt_trichotomy i 11) as [L|[L|L]]; [|assumption|].
      - exfalso. apply is_signature_iff in Hs.
        do 11 (destruct i as [|i]; [discriminate Hs|]). lia.
      - exfalso. apply (Hmin 11%nat L). apply is_signature_iff. reflexivity. }
    subst i. eexists. split; [rewrite H by lia; vm_compute; reflexivity|].
    repeat split.
Defined.

(** Where the sizes are not those before the stream header: a header at
    offset 4, with an integer at offset 0. *)
Lemma load_spec_counterexample :
  let data := [x02; x00; x00; x00; x78; xda; x41; x42] in
  first_signature data 4 /\
  u32_at data 0 = 2 /\
  stored_decompress (firstn 4 (skipn 4 data)) = Ok [x41; x42] /\
  load stored_decompress data = Raise StructError.
Proof.
  cbv zeta. split; [apply first_signature_intro; [lia|reflexivity|reflexivity]|].
  split; [reflexivity|]. split; [reflexivity|]. vm_compute. reflexivity.
Qed.

(** An instance of [load_early]: a file that starts with the stream and
    ends with the two sizes. *)
Lemma load_early_witness :
  load stored_decompress
    ([x78; xda; x41; x42] ++ [x04; x00; x00; x00] ++ [x02; x00; x00; x00])
  = Raise StructError.
Proof.
  apply (load_early stored_decompress
           ([x78; xda; x41; x42] ++ [x04; x00; x00; x00] ++ [x02; x00; x00; x00])
           0).
  - apply first_signature_intro; [lia|reflexivity|reflexivity].
  - lia.
Defined.

(** Where [load] fails on a stream header in the first eight bytes: the
    header at offset 2, the sizes read from the end of the file being
    [data[-6:-2]] (four bytes) and [data[-2:2]] (no byte). *)
Lemma load_early_counterexample :
  let data := [x53; x48; x78; x9c; x00; x41; x42; x07; x00; x00; x00; x02; x00] in
  first_signature data 2 /\
  slice data (-6) (-2) = [x07; x00; x00; x00] /\
  slice data (-2) 2 = [] /\
  load stored_decompress data = Raise StructError /\
  load stored_decompress data <> Ok None.
Proof.
  cbv zeta. split; [apply first_signature_intro; [lia|reflexivity|reflexivity]|].
  split; [reflexivity|]. split; [reflexivity|].
  split; [vm_compute; reflexivity|]. vm_compute. discriminate.
Qed.

(** An instance of [save_layout]: the payload of a loaded container is
    replaced by three bytes. *)
Lemma save_layout_witness :
  let data := [x53; x48; x32] ++ [x04; x00; x00; x00] ++ [x02; x00; x00; x00]
                ++ [x78; xda; x41; x42] in
  let ed := {| save_data :=
                 {| header := [x53; x48; x32];
                    size_info_offset := 3;
                    compression_offset := 11;
                    sd_decompressed := [x41; x42];
                    uncompressed_size := 2;
                    compressed_size := 4 |};
               decompressed := [x41; x42] |} in
  exists (i : nat) (cs us : bytes),
    first_signature data i /\ (8 <= i)%nat /\
    header (save_data ed) = firstn (i - 8) data /\
    length cs = 4%nat /\ le_value cs = 5 /\
    length us = 4%nat /\ le_value us = 3 /\
    save stored_compress (with_payload ed [x43; x44; x45]) =
    Ok (firstn (i - 8) data ++ cs ++ us ++ [x78; xda; x43; x44; x45]).
Proof.
  cbv zeta.
  apply (save_layout stored_compress stored_decompress
           ([x53; x48; x32] ++ [x04; x00; x00; x00] ++ [x02; x00; x00; x00]
              ++ [x78; xda; x41; x42])
           {| save_data :=
                {| header := [x53; x48; x32];
                   size_info_offset := 3;
                   compression_offset := 11;
                   sd_decompressed := [x41; x42];
                   uncompressed_size := 2;
                   compressed_size := 4 |};
              decompressed := [x41; x42] |}
           [x43; x44; x45]); vm_compute; reflexivity.
Defined.

(** ** Round trip *)

Section RoundTrip.

Variable compress : bytes -> bytes.
Variable decompress : bytes -> res bytes.

(** zlib is lossless, and a stream compressed at level 9 starts with the
    two bytes [78 da]. *)
Hypothesis lossless : forall p, decompress (compress p) = Ok p.
Hypothesis level9_header : forall p, exists r, compress p = x78 :: xda :: r.

Lemma sig_at_stream (pre r : bytes) : sig_at (pre ++ x78 :: xda :: r) (length pre).
Proof.
  split.
  - rewrite nth_error_app2, Nat.sub_diag by lia. reflexivity.
  - right. rewrite nth_error_app2 by lia.
    replace (length pre + 1 - length pre)%nat with 1%nat by lia. reflexivity.
Qed.

(** C7 (as the code has it). For a container that [load] accepts, whose
    payload and recompressed payload have lengths that fit in 32 bits,
    [save] yields a file; when no stream header starts in that file before
    the recompressed stream (in the header and the two new size fields),
    loading it yields the same payload and the same header. *)
Theorem round_trip (data : bytes) (ed : Editor) :
  load decompress data = Ok (Some ed) ->
  len (decompressed ed) < 2 ^ 32 ->
  len (compress (decompressed ed)) < 2 ^ 32 ->
  exists file,
    save compress ed = Ok file /\
    ((forall j, (j < length (header (save_data ed)) + 8)%nat -> ~ sig_at file j) ->
     exists ed',
       load decompress file = Ok (Some ed') /\
       decompressed ed' = decompressed ed /\
       header (save_data ed') = header (save_data ed)).
Proof.
  intros L Hp Hc.
  destruct (load_ok_inv decompress data ed L) as (i & F & Hi & E).
  pose proof (sig_at_bound _ _ (proj1 (proj2 F))) as B.
  rewrite (load_at_late decompress data i (proj1 (proj2 F)) Hi) in E.
  destruct (decompress _) as [p|e]; [|discriminate]. cbn [bind] in E.
  apply Ok_inj in E. subst ed. cbn [decompressed save_data header] in *.
  set (h := firstn (i - 8) data) in *.
  assert (Lh : length h = (i - 8)%nat)
    by (unfold h; rewrite length_firstn; lia).
  set (c := compress p) in *.
  set (cs := le_bytes 4 (len c)). set (us := le_bytes 4 (len p)).
  pose proof (len_nonneg p). pose proof (len_nonneg c).
  exists (h ++ cs ++ us ++ c). split.
  { unfold save. cbn [decompressed save_data header]. fold c.
    rewrite !pack_I_ok by lia. reflexivity. }
  intro N. rewrite Lh in N.
  assert (Lcs : length cs = 4%nat) by apply length_le_bytes.
  assert (Lus : length us = 4%nat) by apply length_le_bytes.
  assert (Lpre : length (h ++ cs ++ us) = i)
    by (rewrite !length_app, Lh, Lcs, Lus; lia).
  assert (Ef : h ++ cs ++ us ++ c = (h ++ cs ++ us) ++ c)
    by (rewrite <- !app_assoc; reflexivity).
  assert (S : sig_at (h ++ cs ++ us ++ c) i).
  { destruct (level9_header p) as [r Hr]. fold c in Hr.
    rewrite Ef, Hr, <- Lpre. apply sig_at_stream. }
  destruct (load_cases decompress (h ++ cs ++ us ++ c))
    as [[N' _]|(k & Fk & E)].
  { exfalso. apply (N' i); [apply F|exact S]. }
  assert (k = i).
  { destruct Fk as (_ & Hs' & Hmin').
    destruct (Nat.lt_trichotomy k i) as [Lt|[Lt|Lt]]; [|assumption|].
    - exfalso. apply (N k); [lia|exact Hs'].
    - exfalso. apply (Hmin' i Lt S). }
  subst k. rewrite (load_at_late decompress _ i S Hi) in E.
  assert (U : u32_at (h ++ cs ++ us ++ c) (i - 8) = len c).
  { unfold u32_at. rewrite <- Lh, skipn_length_app.
    rewrite <- Lcs, firstn_length_app. unfold cs.
    rewrite le_value_le_bytes. change (256 ^ Z.of_nat 4) with (2 ^ 32).
    apply Z.mod_small. lia. }
  assert (Sk : skipn i (h ++ cs ++ us ++ c) = c)
    by (rewrite Ef, <- Lpre; apply skipn_length_app).
  assert (Fc : firstn (Z.to_nat (len c)) c = c)
    by (unfold len; rewrite Nat2Z.id; apply firstn_all).
  assert (Hd : firstn (i - 8) (h ++ cs ++ us ++ c) = h)
    by (rewrite <- Lh; apply firstn_length_app).
  assert (Dc : decompress c = Ok p) by apply lossless.
  rewrite U, Sk, Fc, Hd, Dc in E. cbn [bind] in E.
  eexists. split; [exact E|]. cbn [decompressed save_data header].
  split; reflexivity.
Qed.

End RoundTrip.

Lemma stored_lossless p : stored_decompress (stored_compress p) = Ok p.
Proof. reflexivity. Qed.

Lemma stored_level9_header p : exists r, stored_compress p = x78 :: xda :: r.
Proof. exists p. reflexivity. Qed.

(** An instance of [round_trip] with the stored codec: a stream
    [78 9c] of 5 bytes is rebuilt as a stream [78 da] of 4 bytes. *)
Lemma round_trip_witness :
  let data := [x53; x48; x32] ++ [x05; x00; x00; x00] ++ [x02; x00; x00; x00]
                ++ [x78; x9c; x00; x41; x42] in
  let ed := {| save_data :=
                 {| header := [x53; x48; x32];
                    size_info_offset := 3;
                    compression_offset := 11;
                    sd_decompressed := [x41; x42];
                    uncompressed_size := 2;
                    compressed_size := 5 |};
               decompressed := [x41; x42] |} in
  load stored_decompress data = Ok (Some ed) /\
  exists file ed',
    save stored_compress ed = Ok file /\
    load stored_decompress file = Ok (Some ed') /\
    decompressed ed' = [x41; x42] /\
    header (save_data ed') = [x53; x48; x32].
Proof.
  cbv zeta. split; [vm_compute; reflexivity|].
  destruct (round_trip stored_compress stored_decompress
              stored_lossless stored_level9_header
              ([x53; x48; x32] ++ [x05; x00; x00; x00] ++ [x02; x00; x00; x00]
                 ++ [x78; x9c; x00; x41; x42])
              {| save_data :=
                   {| header := [x53; x48; x32];
                      size_info_offset := 3;
                      compression_offset := 11;
                      sd_decompressed := [x41; x42];
                      uncompressed_size := 2;
                      compressed_size := 5 |};
                 decompressed := [x41; x42] |})
    as (file & Hs & H).
  - vm_compute. reflexivity.
  - vm_compute. reflexivity.
  - vm_compute. reflexivity.
  - exists file.
    assert (Ef : file = [x53; x48; x32] ++ [x04; x00; x00; x00]
                          ++ [x02; x00; x00; x00] ++ [x78; xda; x41; x42]).
    { apply Ok_inj. rewrite <- Hs. vm_compute. reflexivity. }
    destruct H as (ed' & H1 & H2 & H3).
    + intros j Hj Hc. subst file. apply is_signature_iff in Hc.
      cbn [header save_data length] in Hj.
      do 11 (destruct j as [|j]; [discriminate Hc|]). lia.
    + exists ed'. repeat split; assumption.
Defined.

(** Where the rebuilt container does not load: the header ends with the
    byte [78] and the recompressed stream has [9c] = 156 bytes, so the
    rebuilt file has a stream header at offset 0; the container itself has
    a stream of 157 bytes and loads. *)
Lemma round_trip_counterexample :
  let payload := repeat x00 154 in
  let data := [x78] ++ [x9d; x00; x00; x00] ++ [x9a; x00; x00; x00]
                ++ [x78; x9c; x00] ++ payload in
  let file := [x78] ++ [x9c; x00; x00; x00] ++ [x9a; x00; x00; x00]
                ++ [x78; xda] ++ payload in
  exists ed,
    first_signature data 9 /\
    load stored_decompress data = Ok (Some ed) /\
    header (save_data ed) = [x78] /\
    compressed_size (save_data ed) = 157 /\
    uncompressed_size (save_data ed) = 154 /\
    decompressed ed = payload /\
    save stored_compress ed = Ok file /\
    load stored_decompress file = Raise StructError.
Proof.
  cbv zeta. eexists.
  split; [apply first_signature_intro; [lia|reflexivity|reflexivity]|].
  split; [vm_compute; reflexivity|].
  split; [reflexivity|]. split; [reflexivity|]. split; [reflexivity|].
  split; [reflexivity|]. split; vm_compute; reflexivity.
Qed.

(** * Further properties of the field locator *)

Lemma le_bytes_mod (n : nat) (z : Z) :
  le_bytes n (z mod 256 ^ Z.of_nat n) = le_bytes n z.
Proof.
  rewrite <- (le_value_le_bytes n z).
  rewrite <- (length_le_bytes n z) at 1. apply le_bytes_le_value.
Qed.

(** Packing what was unpacked gives the bytes back. *)
Lemma pack_unpack_i b v : unpack_i b = Ok v -> pack_i v = Ok b.
Proof.
  unfold unpack_i. destruct (Nat.eqb_spec (length b) 4) as [L|]; [|discriminate].
  intro H. apply Ok_inj in H.
  pose proof (le_value_range b) as R. unfold len in R. rewrite L in R.
  change (256 ^ Z.of_nat 4) with (2 ^ 32) in R.
  assert (E : le_bytes 4 v = b).
  { rewrite <- (le_bytes_mod 4 v). change (256 ^ Z.of_nat 4) with (2 ^ 32).
    replace (v mod 2 ^ 32) with (le_value b).
    - rewrite <- L. apply le_bytes_le_value.
    - subst v. destruct (Z.ltb_spec (le_value b) (2 ^ 31)).
      + rewrite Z.mod_small by lia. reflexivity.
      + rewrite <- (Z.mod_add _ 1 (2 ^ 32)) by lia.
        rewrite Z.mod_small by lia. lia. }
  rewrite pack_i_ok; [rewrite E; reflexivity|].
  subst v. destruct (Z.ltb_spec (le_value b) (2 ^ 31)); lia.
Qed.

Lemma pack_i_out_of_range v :
  v < - 2 ^ 31 \/ 2 ^ 31 <= v -> pack_i v = Raise StructError.
Proof.
  intro H. unfold pack_i.
  destruct (Z.leb_spec (- 2 ^ 31) v); destruct (Z.ltb_spec v (2 ^ 31));
    try lia; reflexivity.
Qed.

(** A slice of four bytes lies inside the sequence. *)
Lemma slice_full_inside d off :
  0 <= off -> length (slice d off (off + 4)) = 4%nat -> off + 4 <= len d.
Proof.
  intros Ho L. pose proof (length_slice d off (off + 4)) as H.
  rewrite L in H. rewrite !adjust_nonneg in H by lia.
  pose proof (len_nonneg d). lia.
Qed.

Lemma unpack_i_length b v : unpack_i b = Ok v -> length b = 4%nat.
Proof.
  unfold unpack_i. destruct (Nat.eqb_spec (length b) 4); [auto|discriminate].
Qed.

(** Assigning to a slice the bytes it holds changes nothing. *)
Lemma set_slice_slice d off :
  0 <= off -> off + 4 <= len d ->
  set_slice d off (off + 4) (slice d off (off + 4)) = d.
Proof.
  intros Ho Hin. rewrite set_slice_inside, slice_inside by lia.
  replace (Z.to_nat (off + 4)) with (Z.to_nat (off + 4 - off) + Z.to_nat off)%nat
    by lia.
  rewrite <- skipn_skipn, firstn_skipn, firstn_skipn. reflexivity.
Qed.

(** The length after a slice assignment of four bytes. *)
Lemma len_set_slice d off b :
  0 <= off -> length b = 4%nat ->
  len (set_slice d off (off + 4) b) = Z.max (len d) (Z.min off (len d) + 4).
Proof.
  intros Ho Lb. unfold set_slice. rewrite !adjust_nonneg by lia.
  rewrite !len_app. unfold len. rewrite length_firstn, length_skipn, Lb.
  pose proof (len_nonneg d). unfold len in *. lia.
Qed.

(** A second assignment to the same slice replaces the first. *)
Lemma set_slice_twice d off b1 b2 :
  0 <= off -> off + 4 <= len d -> length b1 = 4%nat ->
  set_slice (set_slice d off (off + 4) b1) off (off + 4) b2 =
  set_slice d off (off + 4) b2.
Proof.
  intros Ho Hin L1.
  pose proof (len_set_slice_inside d off (off + 4) b1 ltac:(lia) Hin
                ltac:(unfold len; lia)) as L.
  rewrite (set_slice_inside (set_slice d off (off + 4) b1)) by lia.
  rewrite !(set_slice_inside d) by lia.
  assert (Lf : length (firstn (Z.to_nat off) d) = Z.to_nat off)
    by (rewrite length_firstn; unfold len in *; lia).
  f_equal.
  - rewrite <- Lf at 1. apply firstn_length_app.
  - f_equal. rewrite app_assoc.
    replace (Z.to_nat (off + 4))
      with (length (firstn (Z.to_nat off) d ++ b1))
      by (rewrite length_app, Lf, L1; lia).
    apply skipn_length_app.
Qed.

Lemma find_absent sub b : sub <> [] -> absent sub b -> find b sub = -1.
Proof.
  intros Hne A. destruct (find_spec sub Hne b) as [[H _]|[k [_ [Ho _]]]];
    [assumption|]. exfalso. apply (A k Ho).
Qed.

(** [write] in terms of the offset. *)
Lemma write_at f d v :
  write d f v =
  if write_guard f d
  then b <- pack_value f v ;;
       Ok (true, set_slice d (offset_of f d) (offset_of f d + 4) b)
  else Ok (false, d).
Proof. destruct f; reflexivity. Qed.

Lemma pack_value_length f v b : pack_value f v = Ok b -> length b = 4%nat.
Proof.
  destruct f; cbn [pack_value]; intro H;
    [eapply pack_f_length|eapply pack_i_length|eapply pack_i_length]; eassumption.
Qed.

Lemma write_guard_offset f d : write_guard f d = true -> 1 <= offset_of f d.
Proof.
  destruct f; cbn [write_guard]; intro H;
    [| |apply andb_true_iff in H; destruct H as [H _]];
    apply Z.gtb_lt in H; lia.
Qed.

(** X1. The weapon lookup: [-1] when the weapon name followed by a zero
    byte does not occur in the payload, otherwise the first occurrence plus
    the length of the name plus one; an offset found for an ASCII name is
    the index right after the token, at most the length of the payload. *)
Theorem find_weapon_offset_spec (d : bytes) (weapon_name : string) :
  let token := encode weapon_name ++ [x00] in
  (absent token d /\ _find_weapon_offset d weapon_name = -1) \/
  (exists pos : nat,
      first_occurrence token d pos /\
      _find_weapon_offset d weapon_name = Z.of_nat pos + str_len weapon_name + 1 /\
      (is_ascii weapon_name = true ->
       _find_weapon_offset d weapon_name = Z.of_nat pos + len token /\
       _find_weapon_offset d weapon_name <= len d)).
Proof.
  intro token. unfold _find_weapon_offset. fold token.
  destruct (find_spec token (token_nonempty weapon_name) d) as [[H A]|[k [H F]]];
    rewrite H.
  - left. split; [assumption|reflexivity].
  - right. exists k. split; [assumption|].
    destruct (Z.eqb_spec (Z.of_nat k) (-1)); [lia|]. split; [reflexivity|].
    intro Ha. pose proof (length_encode_ascii weapon_name Ha) as La.
    pose proof (occurs_at_bound token d k (token_nonempty weapon_name) (proj1 F)).
    assert (len token = str_len weapon_name + 1)
      by (unfold token; rewrite len_app, La; reflexivity).
    unfold len in *. lia.
Qed.

(** X2. A field whose name token does not occur in the payload is absent:
    the lookup yields [-1], the read yields [None], and a write of any
    value, in range or not, yields [False] and leaves the payload as it
    is; nothing raises. *)
Theorem absent_field (d : bytes) (f : field) :
  absent (encode (field_name f) ++ [x00]) d ->
  offset_of f d = -1 /\
  read d f = Ok None /\
  forall v, write d f v = Ok (false, d).
Proof.
  intro A.
  assert (E : offset_of f d = -1).
  { destruct f as [|w|i]; cbn [offset_of field_name] in *;
      unfold _find_property_offset, _find_weapon_offset, _find_item_quantity_offset;
      rewrite (find_absent _ d (token_nonempty _) A); reflexivity. }
  split; [exact E|]. split.
  - rewrite read_at. cbv zeta. rewrite E. destruct f; reflexivity.
  - intro v. rewrite write_at.
    replace (write_guard f d) with false; [reflexivity|].
    destruct f; cbn [write_guard]; rewrite E; reflexivity.
Qed.

(** An instance of [absent_field]: a payload without the [Shotgun]
    token. *)
Lemma absent_field_witness :
  read (lit "Pistol" ++ [x00; x0c; x00; x00; x00]) (WeaponAmmo "Shotgun")
  = Ok None.
Proof.
  apply (absent_field (lit "Pistol" ++ [x00; x0c; x00; x00; x00])
           (WeaponAmmo "Shotgun")).
  apply index_in_None. reflexivity.
Defined.

(** X3. A write raises instead of truncating a value that does not fit:
    where the write would take place (the field is found, and for an item
    its four bytes lie inside the payload), an integer outside the signed
    32-bit range makes [set_weapon_ammo] and [set_item_quantity] raise
    [struct.error], and a value that [<f] cannot pack makes [set_health]
    raise the error of the packing. *)
Theorem write_value_errors (d : bytes) :
  (forall weapon_name v,
      _find_weapon_offset d weapon_name <> -1 ->
      v < - 2 ^ 31 \/ 2 ^ 31 <= v ->
      set_weapon_ammo d weapon_name v = Raise StructError) /\
  (forall item_name v,
      _find_item_quantity_offset d item_name <> -1 ->
      _find_item_quantity_offset d item_name + 4 <= len d ->
      v < - 2 ^ 31 \/ 2 ^ 31 <= v ->
      set_item_quantity d item_name v = Raise StructError) /\
  (forall v e,
      _find_property_offset d "HealthValue" "float" <> -1 ->
      pack_f v = Raise e ->
      set_health d v = Raise e).
Proof.
  split; [|split].
  - intros w v Hne Hv. unfold set_weapon_ammo.
    destruct (find_weapon_offset_range d w) as [R|R]; [contradiction|].
    destruct (Z.gtb_spec (_find_weapon_offset d w) 0); [|lia].
    rewrite (pack_i_out_of_range v Hv). reflexivity.
  - intros i v Hne Hin Hv. unfold set_item_quantity.
    destruct (find_item_quantity_offset_range d i) as [R|R]; [contradiction|].
    destruct (Z.gtb_spec (_find_item_quantity_offset d i) 0); [|lia].
    destruct (Z.leb_spec (_find_item_quantity_offset d i + 4) (len d)); [|lia].
    cbn [andb]. rewrite (pack_i_out_of_range v Hv). reflexivity.
  - intros v e Hne Hp. unfold set_health.
    destruct (find_property_offset_range d "HealthValue" "float") as [R|R];
      [contradiction|].
    destruct (Z.gtb_spec (_find_property_offset d "HealthValue" "float") 0); [|lia].
    rewrite Hp. reflexivity.
Qed.

(** Instances of [write_value_errors]: 2^31 rounds, and a health of
    2^128. *)
Lemma write_value_errors_witness :
  set_weapon_ammo (lit "Pistol" ++ [x00; x0c; x00; x00; x00]) "Pistol" (2 ^ 31)
  = Raise StructError /\
  set_health (lit "HealthValue" ++ [x00] ++ lit "FloatProperty" ++ [x00]
                ++ repeat x00 12 ++ [x00; x00; x96; x42]) 0x1p+128%float
  = Raise OverflowError.
Proof.
  split.
  - apply (proj1 (write_value_errors _)).
    + vm_compute. intro C. discriminate C.
    + right. lia.
  - apply (proj2 (proj2 (write_value_errors _))).
    + vm_compute. intro C. discriminate C.
    + vm_compute. reflexivity.
Defined.

(** X4. Writing back the count just read changes nothing: when
    [get_weapon_ammo] or [get_item_quantity] yields [v], the write of [v]
    to the same field succeeds and leaves the payload byte for byte as it
    is. *)
Theorem write_back_read (d : bytes) :
  (forall weapon_name v,
      get_weapon_ammo d weapon_name = Ok (Some v) ->
      set_weapon_ammo d weapon_name v = Ok (true, d)) /\
  (forall item_name v,
      get_item_quantity d item_name = Ok (Some v) ->
      set_item_quantity d item_name v = Ok (true, d)).
Proof.
  assert (K : forall off v,
             0 < off ->
             (r <- unpack_i (slice d off (off + 4)) ;; Ok (Some r)) = Ok (Some v) ->
             (b <- pack_i v ;; Ok (true, set_slice d off (off + 4) b))
             = Ok (true, d)).
  { intros off v Ho H.
    destruct (unpack_i (slice d off (off + 4))) as [u|e] eqn:E; [|discriminate].
    cbn [bind] in H. assert (u = v) by congruence. subst u.
    pose proof (slice_full_inside d off ltac:(lia) (unpack_i_length _ _ E)) as Hin.
    rewrite (pack_unpack_i _ _ E). cbn [bind].
    rewrite set_slice_slice by lia. reflexivity. }
  split.
  - intros w v. unfold get_weapon_ammo, set_weapon_ammo.
    destruct (Z.gtb_spec (_find_weapon_offset d w) 0); [|discriminate].
    intro Hg. apply (K _ v); assumption.
  - intros i v. unfold get_item_quantity, set_item_quantity.
    destruct (Z.gtb_spec (_find_item_quantity_offset d i) 0); [|discriminate].
    destruct (_ <=? _); [|discriminate]. cbn [andb].
    intro Hg. apply (K _ v); assumption.
Qed.

(** An instance of [write_back_read]: the 12 rounds of the pistol. *)
Lemma write_back_read_witness :
  set_weapon_ammo (lit "Pistol" ++ [x00; x0c; x00; x00; x00]) "Pistol" 12
  = Ok (true, lit "Pistol" ++ [x00; x0c; x00; x00; x00]).
Proof.
  apply (proj1 (write_back_read (lit "Pistol" ++ [x00; x0c; x00; x00; x00]))).
  vm_compute. reflexivity.
Defined.

(** X5. The last write wins: after a successful write to a well-named
    field whose four bytes lie inside the payload, a second write to the
    same field gives what it gives on the payload before the first write
    (the same result, error or payload). *)
Theorem last_write_wins (d : bytes) (f : field) (v1 v2 : value_of f) (d1 : bytes) :
  write d f v1 = Ok (true, d1) ->
  offset_of f d + 4 <= len d ->
  well_named f = true ->
  write d1 f v2 = write d f v2.
Proof.
  intros W Hin Wn.
  pose proof (write_same_outside d f v1 d1 W Hin) as S.
  pose proof (write_true_offset d f v1 d1 W) as Ho.
  assert (E : offset_of f d1 = offset_of f d).
  { apply (offset_stable (Z.to_nat (offset_of f d)) d d1 f S Wn); lia. }
  assert (L : len d1 = len d) by (unfold len; f_equal; apply S).
  assert (G : write_guard f d1 = write_guard f d)
    by (destruct f; cbn [write_guard]; rewrite E, ?L; reflexivity).
  rewrite write_at in W.
  destruct (write_guard f d) eqn:Gd; [|discriminate].
  destruct (pack_value f v1) as [b1|e1] eqn:P1; [|discriminate].
  cbn [bind] in W. apply Ok_inj in W.
  assert (D1 : d1 = set_slice d (offset_of f d) (offset_of f d + 4) b1)
    by congruence.
  rewrite !write_at, G, Gd, E.
  destruct (pack_value f v2) as [b2|e2]; [|reflexivity]. cbn [bind].
  rewrite D1, set_slice_twice;
    [reflexivity|lia|assumption|eapply pack_value_length; eassumption].
Qed.

(** An instance of [last_write_wins]: 999 rounds, then 5. *)
Lemma last_write_wins_witness :
  write (lit "Pistol" ++ [x00; xe7; x03; x00; x00]) (WeaponAmmo "Pistol") 5
  = write (lit "Pistol" ++ [x00; x0c; x00; x00; x00]) (WeaponAmmo "Pistol") 5.
Proof.
  apply (last_write_wins (lit "Pistol" ++ [x00; x0c; x00; x00; x00])
           (WeaponAmmo "Pistol") 999 5).
  - vm_compute. reflexivity.
  - vm_compute. intro C. discriminate C.
  - reflexivity.
Defined.

(** X6. The length after a write.  A write that yields [False] leaves the
    payload as it is.  A write that yields [True] gives a payload of length
    [max (len d) (min offset (len d) + 4)]: the length is kept exactly when
    the four bytes at the offset lie inside the payload, and a write to an
    item quantity always keeps it. *)
Theorem write_length (d : bytes) (f : field) (v : value_of f) (r : bool) (d' : bytes) :
  write d f v = Ok (r, d') ->
  (r = false /\ d' = d) \/
  (r = true /\
   len d' = Z.max (len d) (Z.min (offset_of f d) (len d) + 4) /\
   (len d' = len d <-> offset_of f d + 4 <= len d) /\
   (forall item_name, f = ItemQuantity item_name -> len d' = len d)).
Proof.
  rewrite write_at. destruct (write_guard f d) eqn:G.
  - pose proof (write_guard_offset f d G) as Ho.
    destruct (pack_value f v) as [b|e] eqn:P; [|discriminate].
    cbn [bind]. intro H. apply Ok_inj in H.
    assert (r = true) by congruence.
    assert (D : d' = set_slice d (offset_of f d) (offset_of f d + 4) b)
      by congruence.
    right. split; [assumption|].
    pose proof (len_set_slice d (offset_of f d) b ltac:(lia)
                  (pack_value_length f v b P)) as L.
    rewrite <- D in L. pose proof (len_nonneg d).
    split; [exact L|]. split; [lia|].
    intros i ->. cbn [write_guard] in G. apply andb_true_iff in G.
    destruct G as [_ G]. apply Z.leb_le in G. lia.
  - intro H. apply Ok_inj in H. left. split; congruence.
Qed.

(** An instance of [write_length]: a write that makes the payload grow by
    two bytes. *)
Lemma write_length_witness :
  len (lit "Pistol" ++ [x00; xe7; x03; x00; x00]) =
  Z.max (len (lit "Pistol" ++ [x00; x0c; x00]))
        (Z.min (offset_of (WeaponAmmo "Pistol") (lit "Pistol" ++ [x00; x0c; x00]))
               (len (lit "Pistol" ++ [x00; x0c; x00])) + 4).
Proof.
  destruct (write_length (lit "Pistol" ++ [x00; x0c; x00]) (WeaponAmmo "Pistol")
              999 true (lit "Pistol" ++ [x00; xe7; x03; x00; x00]))
    as [[C _]|(_ & L & _)].
  - vm_compute. reflexivity.
  - discriminate C.
  - exact L.
Defined.

(** * Further properties of the container locator *)

Lemma firstn_skipn_app {A : Type} (a t : list A) k n :
  (k + n <= length a)%nat ->
  firstn n (skipn k (a ++ t)) = firstn n (skipn k a).
Proof.
  intro H. rewrite skipn_app, firstn_app, length_skipn.
  replace (n - (length a - k))%nat with 0%nat by lia.
  rewrite firstn_O. apply app_nil_r.
Qed.

Lemma sig_at_app data t j :
  (j + 2 <= length data)%nat -> sig_at (data ++ t) j <-> sig_at data j.
Proof.
  intro H. unfold sig_at. rewrite !nth_error_app1 by lia. reflexivity.
Qed.

Lemma le_bytes_u32_at data k :
  (k + 4 <= length data)%nat ->
  le_bytes 4 (u32_at data k) = firstn 4 (skipn k data).
Proof.
  intro H. unfold u32_at.
  replace 4%nat with (length (firstn 4 (skipn k data))) at 1
    by (rewrite length_firstn, length_skipn; lia).
  apply le_bytes_le_value.
Qed.

Section Loading.

Variable decompress : bytes -> res bytes.

(** X7. What a successful [load] leaves: the stream header was found at
    an offset from 8 to 299, the size fields start 8 bytes before it and
    the header has that many bytes; the two sizes are below 2^32; the file
    is the header, the two sizes in little-endian order and the rest from
    the stream header on; the payload is what [zlib.decompress] gave for
    the first [compressed_size] bytes of the rest, and it is kept twice. *)
Theorem load_state (data : bytes) (ed : Editor) :
  load decompress data = Ok (Some ed) ->
  let sd := save_data ed in
  let rest := skipn (Z.to_nat (compression_offset sd)) data in
  8 <= compression_offset sd < 300 /\
  compression_offset sd + 2 <= len data /\
  size_info_offset sd = compression_offset sd - 8 /\
  len (header sd) = size_info_offset sd /\
  0 <= compressed_size sd < 2 ^ 32 /\
  0 <= uncompressed_size sd < 2 ^ 32 /\
  data = header sd ++ le_bytes 4 (compressed_size sd)
           ++ le_bytes 4 (uncompressed_size sd) ++ rest /\
  is_signature (firstn 2 rest) = true /\
  decompress (firstn (Z.to_nat (compressed_size sd)) rest) = Ok (decompressed ed) /\
  sd_decompressed sd = decompressed ed.
Proof.
  intro L. destruct (load_ok_inv decompress data ed L) as (i & F & Hi & E).
  pose proof (sig_at_bound _ _ (proj1 (proj2 F))) as B.
  rewrite (load_at_late decompress data i (proj1 (proj2 F)) Hi) in E.
  destruct (decompress _) as [p|e] eqn:D; [|discriminate]. cbn [bind] in E.
  apply Ok_inj in E. subst ed. cbv zeta.
  cbn [save_data decompressed header size_info_offset compression_offset
         sd_decompressed uncompressed_size compressed_size].
  rewrite Nat2Z.id.
  assert (R : forall k, 0 <= u32_at data k < 2 ^ 32).
  { intro k. unfold u32_at. pose proof (le_value_range (firstn 4 (skipn k data))) as R.
    assert (len (firstn 4 (skipn k data)) <= 4)
      by (unfold len; rewrite length_firstn; lia).
    pose proof (Z.pow_le_mono_r 256 (len (firstn 4 (skipn k data))) 4
                  ltac:(lia) H) as M.
    change (256 ^ 4) with (2 ^ 32) in M. lia. }
  destruct F as (F1 & F2 & _).
  split; [lia|]. split; [unfold len; lia|]. split; [reflexivity|].
  split; [unfold len; rewrite length_firstn; lia|].
  split; [apply R|]. split; [apply R|]. split.
  - rewrite !le_bytes_u32_at by lia.
    rewrite <- (firstn_skipn (i - 8) data) at 1. f_equal.
    rewrite <- (firstn_skipn 4 (skipn (i - 8) data)) at 1. f_equal.
    rewrite skipn_skipn. replace (4 + (i - 8))%nat with (i - 4)%nat by lia.
    rewrite <- (firstn_skipn 4 (skipn (i - 4) data)) at 1. f_equal.
    rewrite skipn_skipn. f_equal. lia.
  - split; [|split; [exact D|reflexivity]].
    apply is_signature_iff in F2. rewrite slice_from_nat in F2 by lia. exact F2.
Qed.

(** X8. [load] returns [False] exactly when no stream header starts at
    an offset below 300: with a header there it either succeeds or
    raises. *)
Theorem load_false_iff (data : bytes) :
  load decompress data = Ok None <-> no_signature data.
Proof.
  split.
  - intro H. destruct (load_cases decompress data) as [[N _]|(i & F & E)];
      [exact N|].
    rewrite E in H. destruct (load_at decompress data (Z.of_nat i)); discriminate.
  - intro N. destruct (load_cases decompress data) as [[_ E]|(i & F & _)];
      [exact E|].
    exfalso. apply (N i); apply F.
Qed.

(** X9. Bytes after the compressed stream are ignored: when [load]
    succeeds and the declared compressed size does not run over the end
    of the file, [load] gives the same state for the file followed by any
    bytes. *)
Theorem load_ignores_trailing (data : bytes) (ed : Editor) (trailing : bytes) :
  load decompress data = Ok (Some ed) ->
  compression_offset (save_data ed) + compressed_size (save_data ed) <= len data ->
  load decompress (data ++ trailing) = Ok (Some ed).
Proof.
  intros L Hin. destruct (load_ok_inv decompress data ed L) as (i & F & Hi & E).
  destruct F as (F1 & F2 & F3). pose proof (sig_at_bound _ _ F2) as B.
  assert (F' : first_signature (data ++ trailing) i).
  { split; [assumption|]. split; [apply sig_at_app; [lia|assumption]|].
    intros j Hj Hc. apply (F3 j Hj). apply (sig_at_app data trailing j); [lia|assumption]. }
  destruct (load_cases decompress (data ++ trailing)) as [[N _]|(k & Fk & Ek)].
  { exfalso. apply (N i F1). apply F'. }
  assert (k = i).
  { destruct Fk as (_ & Hs' & Hmin'). destruct F' as (_ & Hs & Hmin).
    destruct (Nat.lt_trichotomy k i) as [Lt|[Lt|Lt]]; [|assumption|].
    - exfalso. apply (Hmin k Lt Hs').
    - exfalso. apply (Hmin' i Lt Hs). }
  subst k. rewrite Ek.
  rewrite (load_at_late decompress data i F2 Hi) in E.
  rewrite (load_at_late decompress _ i (proj1 (proj2 F')) Hi).
  assert (U8 : u32_at (data ++ trailing) (i - 8) = u32_at data (i - 8))
    by (unfold u32_at; rewrite firstn_skipn_app by lia; reflexivity).
  assert (U4 : u32_at (data ++ trailing) (i - 4) = u32_at data (i - 4))
    by (unfold u32_at; rewrite firstn_skipn_app by lia; reflexivity).
  rewrite U8, U4.
  destruct (decompress (firstn (Z.to_nat (u32_at data (i - 8))) (skipn i data)))
    as [p|e] eqn:D; [|discriminate].
  cbn [bind] in E. apply Ok_inj in E. subst ed.
  cbn [save_data compression_offset compressed_size] in Hin.
  assert (P : 0 <= u32_at data (i - 8)) by apply le_value_range.
  rewrite firstn_skipn_app by (unfold len in Hin; lia). rewrite D. cbn [bind].
  rewrite (firstn_app (i - 8) data trailing).
  replace (i - 8 - length data)%nat with 0%nat by lia.
  rewrite firstn_O, app_nil_r. reflexivity.
Qed.

End Loading.

(** An instance of [load_state], with the stored codec. *)
Lemma load_state_witness :
  exists ed,
    load stored_decompress
      ([x53; x48; x32] ++ [x04; x00; x00; x00] ++ [x02; x00; x00; x00]
         ++ [x78; xda; x41; x42]) = Ok (Some ed) /\
    size_info_offset (save_data ed) = compression_offset (save_data ed) - 8 /\
    len (header (save_data ed)) = size_info_offset (save_data ed).
Proof.
  eexists. split; [vm_compute; reflexivity|].
  match goal with
  | |- size_info_offset (save_data ?e) = _ /\ _ =>
      destruct (load_state stored_decompress
                  ([x53; x48; x32] ++ [x04; x00; x00; x00] ++ [x02; x00; x00; x00]
                     ++ [x78; xda; x41; x42]) e)
        as (_ & _ & H1 & H2 & _)
  end.
  - vm_compute. reflexivity.
  - split; [exact H1|exact H2].
Defined.

(** An instance of [load_ignores_trailing], with the stored codec. *)
Lemma load_ignores_trailing_witness :
  load stored_decompress
    (([x53; x48; x32] ++ [x04; x00; x00; x00] ++ [x02; x00; x00; x00]
        ++ [x78; xda; x41; x42]) ++ [x78; x9c; xff])
  = Ok (Some {| save_data :=
                  {| header := [x53; x48; x32];
                     size_info_offset := 3;
                     compression_offset := 11;
                     sd_decompressed := [x41; x42];
                     uncompressed_size := 2;
                     compressed_size := 4 |};
                decompressed := [x41; x42] |}).
Proof.
  apply (load_ignores_trailing stored_decompress
           ([x53; x48; x32] ++ [x04; x00; x00; x00] ++ [x02; x00; x00; x00]
              ++ [x78; xda; x41; x42])).
  - vm_compute. reflexivity.
  - vm_compute. intro C. discriminate C.
Defined.

Section Saving.

Variable compress : bytes -> bytes.
Variable decompress : bytes -> res bytes.

Hypothesis lossless : forall p, decompress (compress p) = Ok p.
Hypothesis level9_header : forall p, exists r, compress p = x78 :: xda :: r.

(** X10. Saving an edited payload and loading the result: for a loaded
    container and any payload [p] whose length and compressed length fit
    in 32 bits, [save] yields a file; when no stream header starts in it
    before the new stream, [load] of that file yields the payload [p], the
    same header and offsets, and as sizes the lengths of the compressed
    payload and of [p]. *)
Theorem save_then_load (data : bytes) (ed : Editor) (p : bytes) :
  load decompress data = Ok (Some ed) ->
  len p < 2 ^ 32 ->
  len (compress p) < 2 ^ 32 ->
  exists file,
    save compress (with_payload ed p) = Ok file /\
    ((forall j, (j < length (header (save_data ed)) + 8)%nat -> ~ sig_at file j) ->
     load decompress file =
     Ok (Some {| save_data :=
                   {| header := header (save_data ed);
                      size_info_offset := size_info_offset (save_data ed);
                      compression_offset := compression_offset (save_data ed);
                      sd_decompressed := p;
                      uncompressed_size := len p;
                      compressed_size := len (compress p) |};
                 decompressed := p |})).
Proof.
  intros L Hp Hc.
  destruct (load_ok_inv decompress data ed L) as (i & F & Hi & E).
  pose proof (sig_at_bound _ _ (proj1 (proj2 F))) as B.
  rewrite (load_at_late decompress data i (proj1 (proj2 F)) Hi) in E.
  destruct (decompress _) as [p0|e]; [|discriminate]. cbn [bind] in E.
  apply Ok_inj in E. subst ed.
  cbn [with_payload decompressed save_data header size_info_offset
         compression_offset] in *.
  set (h := firstn (i - 8) data) in *.
  assert (Lh : length h = (i - 8)%nat)
    by (unfold h; rewrite length_firstn; lia).
  set (c := compress p) in *.
  set (cs := le_bytes 4 (len c)). set (us := le_bytes 4 (len p)).
  pose proof (len_nonneg p). pose proof (len_nonneg c).
  exists (h ++ cs ++ us ++ c). split.
  { unfold save, with_payload. cbn [decompressed save_data header]. fold c.
    rewrite !pack_I_ok by lia. reflexivity. }
  intro N. rewrite Lh in N.
  assert (Lcs : length cs = 4%nat) by apply length_le_bytes.
  assert (Lus : length us = 4%nat) by apply length_le_bytes.
  assert (Lpre : length (h ++ cs ++ us) = i)
    by (rewrite !length_app, Lh, Lcs, Lus; lia).
  assert (Lhc : length (h ++ cs) = (i - 4)%nat)
    by (rewrite !length_app, Lh, Lcs; lia).
  assert (Ef : h ++ cs ++ us ++ c = (h ++ cs ++ us) ++ c)
    by (rewrite <- !app_assoc; reflexivity).
  assert (Eg : h ++ cs ++ us ++ c = (h ++ cs) ++ us ++ c)
    by (rewrite <- !app_assoc; reflexivity).
  assert (S : sig_at (h ++ cs ++ us ++ c) i).
  { destruct (level9_header p) as [r Hr]. fold c in Hr.
    rewrite Ef, Hr, <- Lpre. apply sig_at_stream. }
  destruct (load_cases decompress (h ++ cs ++ us ++ c))
    as [[N' _]|(k & Fk & E)].
  { exfalso. apply (N' i); [apply F|exact S]. }
  assert (k = i).
  { destruct Fk as (_ & Hs' & Hmin').
    destruct (Nat.lt_trichotomy k i) as [Lt|[Lt|Lt]]; [|assumption|].
    - exfalso. apply (N k); [lia|exact Hs'].
    - exfalso. apply (Hmin' i Lt S). }
  subst k. rewrite E, (load_at_late decompress _ i S Hi).
  assert (U : u32_at (h ++ cs ++ us ++ c) (i - 8) = len c).
  { unfold u32_at. rewrite <- Lh, skipn_length_app.
    rewrite <- Lcs, firstn_length_app. unfold cs.
    rewrite le_value_le_bytes. change (256 ^ Z.of_nat 4) with (2 ^ 32).
    apply Z.mod_small. lia. }
  assert (V : u32_at (h ++ cs ++ us ++ c) (i - 4) = len p).
  { unfold u32_at. rewrite Eg, <- Lhc, skipn_length_app.
    rewrite <- Lus, firstn_length_app. unfold us.
    rewrite le_value_le_bytes. change (256 ^ Z.of_nat 4) with (2 ^ 32).
    apply Z.mod_small. lia. }
  assert (Sk : skipn i (h ++ cs ++ us ++ c) = c)
    by (rewrite Ef, <- Lpre; apply skipn_length_app).
  assert (Fc : firstn (Z.to_nat (len c)) c = c)
    by (unfold len; rewrite Nat2Z.id; apply firstn_all).
  assert (Hd : firstn (i - 8) (h ++ cs ++ us ++ c) = h)
    by (rewrite <- Lh; apply firstn_length_app).
  assert (Dc : decompress c = Ok p) by apply lossless.
  rewrite U, V, Sk, Fc, Hd, Dc. reflexivity.
Qed.

End Saving.

(** An instance of [save_then_load] with the stored codec: the payload
    of two bytes is replaced by three. *)
Lemma save_then_load_witness :
  let data := [x53; x48; x32] ++ [x05; x00; x00; x00] ++ [x02; x00; x00; x00]
                ++ [x78; x9c; x00; x41; x42] in
  let ed := {| save_data :=
                 {| header := [x53; x48; x32];
                    size_info_offset := 3;
                    compression_offset := 11;
                    sd_decompressed := [x41; x42];
                    uncompressed_size := 2;
                    compressed_size := 5 |};
               decompressed := [x41; x42] |} in
  exists file,
    save stored_compress (with_payload ed [x43; x44; x45]) = Ok file /\
    exists ed', load stored_decompress file = Ok (Some ed') /\
                decompressed ed' = [x43; x44; x45] /\
                compressed_size (save_data ed') = 5 /\
                uncompressed_size (save_data ed') = 3.
Proof.
  cbv zeta.
  destruct (save_then_load stored_compress stored_decompress
              stored_lossless stored_level9_header
              ([x53; x48; x32] ++ [x05; x00; x00; x00] ++ [x02; x00; x00; x00]
                 ++ [x78; x9c; x00; x41; x42])
              {| save_data :=
                   {| header := [x53; x48; x32];
                      size_info_offset := 3;
                      compression_offset := 11;
                      sd_decompressed := [x41; x42];
                      uncompressed_size := 2;
                      compressed_size := 5 |};
                 decompressed := [x41; x42] |}
              [x43; x44; x45])
    as (file & Hs & H).
  - vm_compute. reflexivity.
  - vm_compute. reflexivity.
  - vm_compute. reflexivity.
  - exists file. split; [exact Hs|].
    assert (Ef : file = [x53; x48; x32] ++ [x05; x00; x00; x00]
                          ++ [x03; x00; x00; x00] ++ [x78; xda; x43; x44; x45]).
    { apply Ok_inj. rewrite <- Hs. vm_compute. reflexivity. }
    eexists. split; [apply H|].
    + intros j Hj Hc. subst file. apply is_signature_iff in Hc.
      cbn [header save_data length] in Hj.
      do 11 (destruct j as [|j]; [discriminate Hc|]). lia.
    + repeat split.
Defined.

(** * Names that end with another name *)

Lemma encode_app a b : encode (a ++ b)%string = encode a ++ encode b.
Proof.
  induction a as [|c a IH]; [reflexivity|].
  cbn [String.append encode]. rewrite IH, app_assoc. reflexivity.
Qed.

Lemma str_len_app a b : str_len (a ++ b)%string = str_len a + str_len b.
Proof.
  unfold str_len. induction a as [|c a IH]; [simpl; lia|].
  cbn [String.append String.length]. lia.
Qed.

Lemma occurs_at_suffix (pre sub d : bytes) pos :
  occurs_at (pre ++ sub) d pos -> occurs_at sub d (pos + length pre).
Proof.
  intros H j Hj. specialize (H (length pre + j)%nat).
  rewrite length_app in H. specialize (H ltac:(lia)).
  rewrite nth_error_app2 in H by lia.
  replace (length pre + j - length pre)%nat with j in H by lia.
  rewrite <- H. f_equal. lia.
Qed.

Lemma occurs_at_starts_with sub d j :
  occurs_at sub d j <-> starts_with sub (skipn j d) = true.
Proof.
  rewrite starts_with_iff, occurs_at_skipn, Nat.add_0_r. reflexivity.
Qed.

(** X11. A weapon lookup also matches the end of a longer name: when the
    first occurrence of the token of [b] is the end of the first occurrence
    of the token of a name [a ++ b] with [a] ASCII, the two names have the
    same offset, so they read the same value and a write to either is the
    same write. *)
Theorem weapon_suffix_alias (d : bytes) (a b : string) (pos : nat) :
  is_ascii a = true ->
  first_occurrence (encode (a ++ b) ++ [x00]) d pos ->
  (forall j, (j < pos + String.length a)%nat ->
             ~ occurs_at (encode b ++ [x00]) d j) ->
  _find_weapon_offset d b = _find_weapon_offset d (a ++ b) /\
  get_weapon_ammo d b = get_weapon_ammo d (a ++ b) /\
  forall v, set_weapon_ammo d b v = set_weapon_ammo d (a ++ b) v.
Proof.
  intros Ha F N.
  pose proof (length_encode_ascii a Ha) as La. unfold len, str_len in La.
  apply Nat2Z.inj in La.
  assert (Fb : first_occurrence (encode b ++ [x00]) d (pos + String.length a)).
  { split.
    - rewrite <- La. apply occurs_at_suffix.
      rewrite app_assoc, <- encode_app. apply F.
    - exact N. }
  assert (E : _find_weapon_offset d b = _find_weapon_offset d (a ++ b)).
  { rewrite (find_weapon_offset_at d b _ Fb), (find_weapon_offset_at d _ pos F).
    rewrite str_len_app. unfold str_len. lia. }
  split; [exact E|]. unfold get_weapon_ammo, set_weapon_ammo. rewrite E.
  split; reflexivity.
Qed.

(** An instance of [weapon_suffix_alias]: [Pistol] and [HeavyPistol]. *)
Lemma weapon_suffix_alias_witness :
  get_weapon_ammo (lit "HeavyPistol" ++ [x00; x0c; x00; x00; x00]) "Pistol"
  = get_weapon_ammo (lit "HeavyPistol" ++ [x00; x0c; x00; x00; x00])
      ("Heavy" ++ "Pistol").
Proof.
  apply (weapon_suffix_alias (lit "HeavyPistol" ++ [x00; x0c; x00; x00; x00])
           "Heavy" "Pistol" 0).
  - reflexivity.
  - apply index_in_Some. reflexivity.
  - intros j Hj Hc. apply occurs_at_starts_with in Hc.
    cbn [String.length Nat.add] in Hj.
    do 5 (destruct j as [|j]; [discriminate Hc|]). lia.
Defined.

(** * Properties of the command line *)

Lemma substring_all s : String.substring 0 (String.length s) s = s.
Proof. induction s as [|c s IH]; [reflexivity|]. simpl. rewrite IH. reflexivity. Qed.

Section CliProperties.

Variable float_of_str : string -> option float.
Variable int_of_str : string -> option Z.
Variable float_of_int : Z -> option float.
Variable int_of_float : float -> option Z.

Abbreviation apply_one := (apply_modification float_of_int int_of_float).
Abbreviation apply_all := (apply_modifications float_of_int int_of_float).
Abbreviation parse := (parse_args float_of_str int_of_str).

(** The three setters behind [apply_modification]. *)
Lemma apply_health d x :
  apply_one d ("health"%string, VFloat x) = lift (set_health d x).
Proof.
  unfold apply_modification, set_health. cbn [String.eqb Ascii.eqb Bool.eqb].
  cbv iota. destruct (_ >? 0); reflexivity.
Qed.

Lemma apply_weapon d t z :
  String.eqb t "health" = false -> String.prefix "item:" t = false ->
  apply_one d (t, VInt z) = lift (set_weapon_ammo d t z).
Proof.
  intros H1 H2. unfold apply_modification, set_weapon_ammo. rewrite H1, H2.
  destruct (_ >? 0); reflexivity.
Qed.

Lemma apply_item d n z :
  apply_one d (("item:" ++ n)%string, VInt z)
  = lift (set_item_quantity d n z).
Proof.
  unfold apply_modification, set_item_quantity.
  change (String.eqb ("item:" ++ n) "health") with false.
  change (String.prefix "item:" ("item:" ++ n)) with (String.prefix "" n).
  replace (String.prefix "" n) with true by (destruct n; reflexivity).
  cbv iota.
  change (String.length ("item:" ++ n) - 5)%nat with (String.length n - 0)%nat.
  rewrite Nat.sub_0_r.
  change (String.substring 5 (String.length n) ("item:" ++ n))
    with (String.substring 0 (String.length n) n).
  rewrite substring_all. destruct (_ && _); reflexivity.
Qed.

(** A modification that yields [False] leaves the payload as it is. *)
Lemma apply_modification_false d m d' :
  apply_one d m = Some (false, d') -> d' = d.
Proof.
  destruct m as [t v]. unfold apply_modification.
  assert (K : forall (r : res (bool * bytes)),
             (forall x, r = Ok (false, x) -> x = d) ->
             lift r = Some (false, d') -> d' = d).
  { intros r Hr H. destruct r as [[b x]|e]; [|discriminate].
    cbn [lift] in H. assert (b = false) by congruence. subst b.
    assert (x = d') by congruence. subst x. apply Hr. reflexivity. }
  assert (W : forall f (w : value_of f) x, write d f w = Ok (false, x) -> x = d).
  { intros f w x H. rewrite write_at in H.
    destruct (write_guard f d); [|congruence].
    destruct (pack_value f w); cbn [bind] in H; congruence. }
  destruct (String.eqb t "health").
  - destruct (_ >? 0); [|congruence].
    destruct (py_float float_of_int v) as [x|]; [|discriminate]. cbn [obind].
    apply K. intros y. apply (W Health x).
  - destruct (String.prefix "item:" t).
    + destruct (_ && _); [|congruence].
      destruct (py_int int_of_float v) as [z|]; [|discriminate]. cbn [obind].
      apply K. intros y. apply (W (ItemQuantity _) z).
    + destruct (_ >? 0); [|congruence].
      destruct (py_int int_of_float v) as [z|]; [|discriminate]. cbn [obind].
      apply K. intros y. apply (W (WeaponAmmo _) z).
Qed.

(** Modifications one after the other. *)
Lemma apply_modifications_app d ms1 ms2 :
  apply_all d (ms1 ++ ms2) =
  obind (apply_all d ms1) (fun r1 =>
  obind (apply_all (snd r1) ms2) (fun r2 =>
  Some (fst r1 ++ fst r2, snd r2))).
Proof.
  revert d. induction ms1 as [|m ms1 IH]; intro d.
  - cbn [app apply_modifications obind fst snd].
    destruct (apply_all d ms2) as [[rs x]|]; reflexivity.
  - cbn [app apply_modifications].
    destruct (apply_one d m) as [[r x]|]; [|reflexivity].
    cbn [obind fst snd]. rewrite IH.
    destruct (apply_all x ms1) as [[rs1 y]|]; [|reflexivity].
    cbn [obind fst snd].
    destruct (apply_all y ms2) as [[rs2 z]|]; reflexivity.
Qed.

Lemma apply_modifications_length d ms rs d' :
  apply_all d ms = Some (rs, d') -> length rs = length ms.
Proof.
  revert d rs d'. induction ms as [|m ms IH]; intros d rs d';
    cbn [apply_modifications].
  - intro H. assert (rs = []) by congruence. subst rs. reflexivity.
  - destruct (apply_one d m) as [[r x]|]; [|discriminate].
    cbn [obind fst snd].
    destruct (apply_all x ms) as [[rs' y]|] eqn:E; [|discriminate].
    cbn [obind fst snd]. intro H.
    assert (rs = r :: rs') by congruence. subst rs.
    cbn [length]. f_equal. eapply IH. eassumption.
Qed.

(** One modification changes the length by at most four bytes and never
    shortens the payload. *)
Lemma apply_modification_len d m r d' :
  apply_one d m = Some (r, d') -> len d <= len d' <= len d + 4.
Proof.
  destruct m as [t v]. unfold apply_modification.
  assert (W : forall f (w : value_of f),
             lift (write d f w) = Some (r, d') -> len d <= len d' <= len d + 4).
  { intros f w H. rewrite write_at in H. destruct (write_guard f d) eqn:G.
    - pose proof (write_guard_offset f d G) as Ho.
      destruct (pack_value f w) as [b|e] eqn:P; [|discriminate].
      cbn [bind lift] in H.
      assert (D : d' = set_slice d (offset_of f d) (offset_of f d + 4) b)
        by congruence.
      pose proof (len_set_slice d (offset_of f d) b ltac:(lia)
                    (pack_value_length f w b P)) as L.
      rewrite <- D in L. pose proof (len_nonneg d). lia.
    - cbn [lift] in H. assert (d' = d) by congruence. subst d'. lia. }
  assert (N : Some (false, d) = Some (r, d') -> len d <= len d' <= len d + 4).
  { intro H. assert (d' = d) by congruence. subst d'. lia. }
  destruct (String.eqb t "health").
  - destruct (_ >? 0); [|exact N].
    destruct (py_float float_of_int v) as [x|]; [|discriminate].
    apply (W Health x).
  - destruct (String.prefix "item:" t).
    + destruct (_ && _); [|exact N].
      destruct (py_int int_of_float v) as [z|]; [|discriminate].
      apply (W (ItemQuantity _) z).
    + destruct (_ >? 0); [|exact N].
      destruct (py_int int_of_float v) as [z|]; [|discriminate].
      apply (W (WeaponAmmo _) z).
Qed.

(** X12. Whatever the arguments, the modifications that the argument
    loop of [main] collects are applied to nine fields only: each one is a
    write of a float to the health, of an integer to the rounds of
    [Pistol], [Shotgun] or [Rifle], or of an integer to the quantity of
    [HealthDrink], [Syringe], [HandgunAmmo], [ShotgunAmmo] or
    [RifleAmmo]. *)
Theorem parse_targets (o : Options) (args : list string) (o' : Options) :
  parse o args = POptions o' ->
  exists added,
    modifications o' = modifications o ++ added /\
    Forall (fun m => exists (f : field) (v : value_of f),
                In f main_fields /\
                forall d, apply_one d m = lift (write d f v)) added.
Proof.
  assert (G : forall n args o,
             (length args <= n)%nat -> parse o args = POptions o' ->
             exists added,
               modifications o' = modifications o ++ added /\
               Forall (fun m => exists (f : field) (v : value_of f),
                           In f main_fields /\
                           forall d, apply_one d m = lift (write d f v)) added).
  { clear o args. induction n as [|n IH]; intros args o Hn.
    - destruct args; [|simpl in Hn; lia]. cbn [parse_args]. intro H.
      exists []. rewrite app_nil_r. split; [congruence|constructor].
    - destruct args as [|arg rest].
      { cbn [parse_args]. intro H. exists []. rewrite app_nil_r.
        split; [congruence|constructor]. }
      cbn [length] in Hn. cbn [parse_args].
      destruct (String.eqb arg "--info"); [discriminate|].
      destruct (String.eqb arg "--no-backup").
      { intro H. apply IH in H; [exact H|lia]. }
      destruct rest as [|next rest'].
      { cbn [parse_args]. intro H. exists []. rewrite app_nil_r.
        split; [congruence|constructor]. }
      cbn [length] in Hn. cbv zeta.
      assert (C : forall m,
                 (exists (f : field) (v : value_of f),
                     In f main_fields /\
                     forall d, apply_one d m = lift (write d f v)) ->
                 parse (add_modification o m) rest' = POptions o' ->
                 exists added,
                   modifications o' = modifications o ++ added /\
                   Forall (fun m => exists (f : field) (v : value_of f),
                               In f main_fields /\
                               forall d, apply_one d m = lift (write d f v))
                          added).
      { intros m Hm H. apply IH in H; [|lia].
        destruct H as (added & E & FA). exists (m :: added).
        cbn [add_modification modifications] in E.
        rewrite <- app_assoc in E. split; [exact E|]. constructor; assumption. }
      destruct (String.eqb arg "--health").
      { destruct (float_of_str next) as [x|]; [|discriminate]. apply C.
        exists Health, x. split; [left; reflexivity|]. intro d. apply apply_health. }
      destruct (String.eqb arg "--pistol").
      { destruct (int_of_str next) as [z|]; [|discriminate]. apply C.
        exists (WeaponAmmo "Pistol"), z.
        split; [right; left; reflexivity|]. intro d. apply apply_weapon; reflexivity. }
      destruct (String.eqb arg "--shotgun").
      { destruct (int_of_str next) as [z|]; [|discriminate]. apply C.
        exists (WeaponAmmo "Shotgun"), z.
        split; [do 2 right; left; reflexivity|]. intro d.
        apply apply_weapon; reflexivity. }
      destruct (String.eqb arg "--rifle").
      { destruct (int_of_str next) as [z|]; [|discriminate]. apply C.
        exists (WeaponAmmo "Rifle"), z.
        split; [do 3 right; left; reflexivity|]. intro d.
        apply apply_weapon; reflexivity. }
      destruct (String.eqb arg "--healthdrink").
      { destruct (int_of_str next) as [z|]; [|discriminate]. apply C.
        exists (ItemQuantity "HealthDrink"), z.
        split; [do 4 right; left; reflexivity|]. intro d.
        exact (apply_item d "HealthDrink" z). }
      destruct (String.eqb arg "--syringe").
      { destruct (int_of_str next) as [z|]; [|discriminate]. apply C.
        exists (ItemQuantity "Syringe"), z.
        split; [do 5 right; left; reflexivity|]. intro d.
        exact (apply_item d "Syringe" z). }
      destruct (String.eqb arg "--handgunammo").
      { destruct (int_of_str next) as [z|]; [|discriminate]. apply C.
        exists (ItemQuantity "HandgunAmmo"), z.
        split; [do 6 right; left; reflexivity|]. intro d.
        exact (apply_item d "HandgunAmmo" z). }
      destruct (String.eqb arg "--shotgunammo").
      { destruct (int_of_str next) as [z|]; [|discriminate]. apply C.
        exists (ItemQuantity "ShotgunAmmo"), z.
        split; [do 7 right; left; reflexivity|]. intro d.
        exact (apply_item d "ShotgunAmmo" z). }
      destruct (String.eqb arg "--rifleammo").
      { destruct (int_of_str next) as [z|]; [|discriminate]. apply C.
        exists (ItemQuantity "RifleAmmo"), z.
        split; [do 8 right; left; reflexivity|]. intro d.
        exact (apply_item d "RifleAmmo" z). }
      destruct (String.eqb arg "--output").
      { intro H. apply IH in H; [exact H|lia]. }
      intro H. apply IH in H; [exact H|simpl; lia]. }
  apply (G (length args)). lia.
Qed.

(** X13. A modification that fails does not touch the others: when the
    modifications before it go through and it yields [False], the session
    with it gives the outcomes and the final payload of the session without
    it, with [False] added at its place. *)
Theorem failed_modification_skipped
    (d : bytes) (ms1 : list (string * value)) (m : string * value)
    (ms2 : list (string * value)) (rs1 : list bool) (d1 d1' : bytes) :
  apply_all d ms1 = Some (rs1, d1) ->
  apply_one d1 m = Some (false, d1') ->
  apply_all d (ms1 ++ m :: ms2) =
  obind (apply_all d (ms1 ++ ms2)) (fun r =>
  Some (insert_at (length ms1) false (fst r), snd r)).
Proof.
  intros H1 Hm. pose proof (apply_modification_false _ _ _ Hm). subst d1'.
  pose proof (apply_modifications_length _ _ _ _ H1) as L.
  rewrite !apply_modifications_app, H1. cbn [obind fst snd apply_modifications].
  rewrite Hm. cbn [obind fst snd].
  destruct (apply_all d1 ms2) as [[rs2 d2]|]; [|reflexivity].
  cbn [obind fst snd]. unfold insert_at. rewrite <- L.
  rewrite firstn_length_app, skipn_length_app. reflexivity.
Qed.

(** A session never shortens the payload and lengthens it by at most four
    bytes for each modification. *)
Lemma apply_modifications_grows d ms rs d' :
  apply_all d ms = Some (rs, d') ->
  len d <= len d' <= len d + 4 * Z.of_nat (length ms).
Proof.
  revert d rs d'. induction ms as [|m ms IH]; intros d rs d';
    cbn [apply_modifications].
  - intro H. assert (d' = d) by congruence. subst d'. simpl. lia.
  - destruct (apply_one d m) as [[r x]|] eqn:E1; [|discriminate].
    cbn [obind fst snd].
    destruct (apply_all x ms) as [[rs' y]|] eqn:E2; [|discriminate].
    cbn [obind fst snd]. intro H. assert (d' = y) by congruence. subst y.
    pose proof (apply_modification_len _ _ _ _ E1).
    pose proof (IH _ _ _ E2). cbn [length]. lia.
Qed.

(** X14. A session never shortens the payload and lengthens it by at most
    four bytes for each modification; it reports one outcome for each
    modification. *)
Theorem apply_modifications_len
    (d : bytes) (ms : list (string * value)) (rs : list bool) (d' : bytes) :
  apply_all d ms = Some (rs, d') ->
  length rs = length ms /\
  len d <= len d' <= len d + 4 * Z.of_nat (length ms).
Proof.
  intro H. split.
  - eapply apply_modifications_length; eassumption.
  - eapply apply_modifications_grows; eassumption.
Qed.

End CliProperties.

(** An instance of [parse_targets]: two options with a value, and
    [--no-backup] between them. *)
Lemma parse_targets_witness :
  exists added,
    [("Pistol"%string, VInt 7); ("item:Syringe"%string, VInt 3)] = [] ++ added /\
    Forall (fun m => exists (f : field) (v : value_of f),
                In f main_fields /\
                forall d, apply_modification small_float trunc_float d m
                          = lift (write d f v)) added.
Proof.
  apply (parse_targets digits_float digits_int small_float trunc_float
           {| output_file := None; modifications := []; create_backup_flag := true |}
           ["--pistol"; "7"; "--no-backup"; "--syringe"; "3"]%string
           {| output_file := None;
              modifications := [("Pistol"%string, VInt 7);
                                ("item:Syringe"%string, VInt 3)];
              create_backup_flag := false |}).
  vm_compute. reflexivity.
Defined.

(** An instance of [failed_modification_skipped]: the payload has a
    pistol and no rifle. *)
Lemma failed_modification_skipped_witness :
  let d := lit "Pistol" ++ [x00; x0c; x00; x00; x00] in
  apply_modifications small_float trunc_float d
    ([("Pistol"%string, VInt 7)] ++ ("Rifle"%string, VInt 9)
       :: [("Pistol"%string, VInt 8)])
  = obind (apply_modifications small_float trunc_float d
             ([("Pistol"%string, VInt 7)] ++ [("Pistol"%string, VInt 8)]))
          (fun r => Some (insert_at 1 false (fst r), snd r)).
Proof.
  cbv zeta.
  apply (failed_modification_skipped small_float trunc_float
           (lit "Pistol" ++ [x00; x0c; x00; x00; x00])
           [("Pistol"%string, VInt 7)] ("Rifle"%string, VInt 9)
           [("Pistol"%string, VInt 8)] [true]
           (lit "Pistol" ++ [x00; x07; x00; x00; x00])
           (lit "Pistol" ++ [x00; x07; x00; x00; x00])).
  - vm_compute. reflexivity.
  - vm_compute. reflexivity.
Defined.

(** An instance of [apply_modifications_len]: the pistol is found in the
    last two bytes of the payload, which grows by two bytes. *)
Lemma apply_modifications_len_witness :
  let d := lit "Pistol" ++ [x00; x0c; x00] in
  let d' := lit "Pistol" ++ [x00; x07; x00; x00; x00] in
  length [true; false] = length [("Pistol"%string, VInt 7); ("Rifle"%string, VInt 9)] /\
  len d <= len d' <= len d + 4 * Z.of_nat (length [("Pistol"%string, VInt 7);
                                                   ("Rifle"%string, VInt 9)]).
Proof.
  cbv zeta.
  apply (apply_modifications_len small_float trunc_float
           (lit "Pistol" ++ [x00; x0c; x00])
           [("Pistol"%string, VInt 7); ("Rifle"%string, VInt 9)]
           [true; false]
           (lit "Pistol" ++ [x00; x07; x00; x00; x00])).
  vm_compute. reflexivity.
Defined.

(** * Properties of the information display *)

(** The slice of four bytes at a found offset has four bytes exactly when
    it ends inside the payload. *)
Lemma length_slice4 d off :
  0 < off -> (length (slice d off (off + 4)) = 4%nat <-> off + 4 <= len d).
Proof.
  intro Ho. split.
  - apply slice_full_inside. lia.
  - intro H. rewrite slice_inside by lia. rewrite length_firstn, length_skipn.
    unfold len in H. lia.
Qed.

Lemma unpack_i_raises b :
  (exists e, unpack_i b = Raise e) <-> length b <> 4%nat.
Proof.
  unfold unpack_i. destruct (Nat.eqb_spec (length b) 4) as [E|E].
  - split; [intros (e & H); discriminate H|intro N; contradiction].
  - split; [intros _; exact E|intros _; eexists; reflexivity].
Qed.

Lemma unpack_f_raises b :
  (exists e, unpack_f b = Raise e) <-> length b <> 4%nat.
Proof.
  unfold unpack_f. destruct (Nat.eqb_spec (length b) 4) as [E|E].
  - split; [intros (e & H); discriminate H|intro N; contradiction].
  - split; [intros _; exact E|intros _; eexists; reflexivity].
Qed.

Lemma bind_raises {A B : Type} (m : res A) (k : A -> B) :
  (exists e, (x <- m ;; Ok (k x)) = Raise e) <-> exists e, m = Raise e.
Proof.
  destruct m as [a|e0]; cbn [bind].
  - split; intros (e & H); discriminate H.
  - split; intros _; eexists; reflexivity.
Qed.

(** The reads without a bounds check raise exactly when the field is
    found with fewer than four bytes left. *)
Lemma get_weapon_ammo_raises d w :
  (exists e, get_weapon_ammo d w = Raise e) <->
  0 < _find_weapon_offset d w /\ len d < _find_weapon_offset d w + 4.
Proof.
  unfold get_weapon_ammo.
  destruct (Z.gtb_spec (_find_weapon_offset d w) 0) as [Hg|Hg].
  - rewrite bind_raises, unpack_i_raises, length_slice4 by lia. lia.
  - split; [intros (e & H); discriminate H|lia].
Qed.

Lemma get_health_raises d :
  (exists e, get_health d = Raise e) <->
  0 < offset_of Health d /\ len d < offset_of Health d + 4.
Proof.
  unfold get_health. cbn [offset_of].
  destruct (Z.gtb_spec (_find_property_offset d "HealthValue" "float") 0) as [Hg|Hg].
  - rewrite bind_raises, unpack_f_raises, length_slice4 by lia. lia.
  - split; [intros (e & H); discriminate H|lia].
Qed.

(** The read of an item quantity never raises. *)
Lemma get_item_quantity_ok d name : exists r, get_item_quantity d name = Ok r.
Proof.
  unfold get_item_quantity.
  destruct (Z.gtb_spec (_find_item_quantity_offset d name) 0) as [Hg|Hg];
    cbn [andb]; [|eexists; reflexivity].
  destruct (Z.leb_spec (_find_item_quantity_offset d name + 4) (len d)) as [Hl|Hl];
    [|eexists; reflexivity].
  unfold unpack_i. rewrite (proj2 (length_slice4 d _ Hg) Hl).
  cbn [Nat.eqb bind]. eexists; reflexivity.
Qed.

(** A loop of reads fails exactly when one of the reads raises. *)
Lemma display_loop_none get names :
  display_loop get names = None <->
  exists name, In name names /\ exists e, get name = Raise e.
Proof.
  induction names as [|n names IH]; cbn [display_loop].
  - split; [discriminate|]. intros (x & [] & _).
  - destruct (get n) as [v|e] eqn:G; cbn [lift obind].
    + destruct (display_loop get names) as [shown|]; cbn [obind].
      * split; [discriminate|]. intros (x & [Hx|Hx] & e & He).
        -- subst x. rewrite G in He. discriminate He.
        -- assert (C : Some shown = None); [|discriminate C].
           apply IH. exists x. split; [exact Hx|]. exists e. exact He.
      * split; [|reflexivity]. intros _.
        destruct (proj1 IH eq_refl) as (x & Hx & He).
        exists x. split; [right; exact Hx|exact He].
    + split; [|reflexivity]. intros _. exists n.
      split; [left; reflexivity|]. exists e. exact G.
Qed.

(** X15. [display_info] ends with an uncaught exception exactly when the
    health or one of the five weapons it looks for is found with fewer
    than four bytes left in the payload; the seven items never make it
    fail. *)
Theorem display_info_crashes (d : bytes) :
  display_info d = None <->
  exists f, In f unchecked_fields /\
            0 < offset_of f d /\ len d < offset_of f d + 4.
Proof.
  unfold display_info, unchecked_fields.
  pose proof (get_health_raises d) as HH.
  pose proof (display_loop_none (get_weapon_ammo d) weapons) as HW.
  pose proof (display_loop_none (get_item_quantity d) inventory_items) as HI.
  destruct (get_health d) as [h|e]; cbn [lift obind].
  - destruct (display_loop (get_weapon_ammo d) weapons) as [ws|]; cbn [obind].
    + destruct (display_loop (get_item_quantity d) inventory_items) as [its|];
        cbn [obind].
      * split; [discriminate|]. intros (f & [Hf|Hf] & Ho).
        -- subst f. apply HH in Ho. destruct Ho as (e & He). discriminate He.
        -- apply in_map_iff in Hf. destruct Hf as (w & <- & Hw).
           cbn [offset_of] in Ho. apply get_weapon_ammo_raises in Ho.
           assert (C : Some ws = None); [|discriminate C].
           apply HW. exists w. split; assumption.
      * exfalso. destruct (proj1 HI eq_refl) as (x & _ & e & He).
        destruct (get_item_quantity_ok d x) as (r & Hr). congruence.
    + split; [|reflexivity]. intros _.
      destruct (proj1 HW eq_refl) as (w & Hw & He).
      exists (WeaponAmmo w). split; [right; apply in_map; exact Hw|].
      cbn [offset_of]. apply get_weapon_ammo_raises. exact He.
  - split; [|reflexivity]. intros _. exists Health.
    split; [left; reflexivity|]. apply HH. exists e. reflexivity.
Qed.

(** * Properties of [main] *)

Lemma pack_I_inv z b : pack_I z = Ok b -> 0 <= z < 2 ^ 32 /\ b = le_bytes 4 z.
Proof.
  unfold pack_I.
  destruct (Z.leb_spec 0 z) as [Hlo|Hlo];
    destruct (Z.ltb_spec z (2 ^ 32)) as [Hhi|Hhi]; cbn [andb];
    try discriminate.
  intro E. apply Ok_inj in E. split; [lia|symmetry; exact E].
Qed.

Lemma options_from_cons o1 o arg args o' :
  output_file o1 = output_file o ->
  create_backup_flag o1 = create_backup_flag o ->
  options_from o1 args o' -> options_from o (arg :: args) o'.
Proof.
  intros E1 E2 [H1 H2]. split.
  - destruct H1 as [H1|(k & p & Hk & Hp & Ho)].
    + left. congruence.
    + right. exists (S k), p. cbn [nth_error].
      split; [exact Hk|]. split; [exact Hp|exact Ho].
  - destruct H2 as [H2|[H2 Hin]].
    + left. congruence.
    + right. split; [exact H2|right; exact Hin].
Qed.

Section MainProperties.

Variable float_of_str : string -> option float.
Variable int_of_str : string -> option Z.
Variable float_of_int : Z -> option float.
Variable int_of_float : float -> option Z.
Variable compress : bytes -> bytes.
Variable decompress : bytes -> res bytes.

(** The output file is the default or follows an [--output]; the backup
    flag is the default or there is a [--no-backup]. *)
Lemma parse_args_options o args o' :
  parse_args float_of_str int_of_str o args = POptions o' ->
  options_from o args o'.
Proof.
  assert (G : forall n args o,
             (length args <= n)%nat ->
             parse_args float_of_str int_of_str o args = POptions o' ->
             options_from o args o').
  { clear o args. induction n as [|n IH]; intros args o Hn.
    - destruct args; [|simpl in Hn; lia]. cbn [parse_args]. intro H.
      assert (o' = o) by congruence. subst o'. split; left; reflexivity.
    - destruct args as [|arg rest].
      { cbn [parse_args]. intro H.
        assert (o' = o) by congruence. subst o'. split; left; reflexivity. }
      cbn [length] in Hn. cbn [parse_args].
      destruct (String.eqb arg "--info"); [discriminate|].
      destruct (String.eqb_spec arg "--no-backup") as [Enb|_].
      { intro H. apply IH in H; [|lia]. destruct H as [H1 H2].
        cbn [output_file create_backup_flag] in H1, H2. split.
        - destruct H1 as [H1|(k & p & Hk & Hp & Ho)]; [left; exact H1|].
          right. exists (S k), p. cbn [nth_error].
          split; [exact Hk|]. split; [exact Hp|exact Ho].
        - right. destruct H2 as [H2|[H2 Hin]].
          + split; [exact H2|left; exact Enb].
          + split; [exact H2|right; exact Hin]. }
      destruct rest as [|next rest'].
      { cbn [parse_args]. intro H.
        assert (o' = o) by congruence. subst o'. split; left; reflexivity. }
      cbn [length] in Hn. cbv zeta.
      assert (C : forall m,
                 parse_args float_of_str int_of_str (add_modification o m) rest'
                 = POptions o' ->
                 options_from o (arg :: next :: rest') o').
      { intros m H. apply IH in H; [|lia].
        apply (options_from_cons o o arg); [reflexivity|reflexivity|].
        apply (options_from_cons (add_modification o m) o next);
          [reflexivity|reflexivity|exact H]. }
      destruct (String.eqb arg "--health").
      { destruct (float_of_str next) as [x|]; [|discriminate]. apply C. }
      destruct (String.eqb arg "--pistol").
      { destruct (int_of_str next) as [z|]; [|discriminate]. apply C. }
      destruct (String.eqb arg "--shotgun").
      { destruct (int_of_str next) as [z|]; [|discriminate]. apply C. }
      destruct (String.eqb arg "--rifle").
      { destruct (int_of_str next) as [z|]; [|discriminate]. apply C. }
      destruct (String.eqb arg "--healthdrink").
      { destruct (int_of_str next) as [z|]; [|discriminate]. apply C. }
      destruct (String.eqb arg "--syringe").
      { destruct (int_of_str next) as [z|]; [|discriminate]. apply C. }
      destruct (String.eqb arg "--handgunammo").
      { destruct (int_of_str next) as [z|]; [|discriminate]. apply C. }
      destruct (String.eqb arg "--shotgunammo").
      { destruct (int_of_str next) as [z|]; [|discriminate]. apply C. }
      destruct (String.eqb arg "--rifleammo").
      { destruct (int_of_str next) as [z|]; [|discriminate]. apply C. }
      destruct (String.eqb_spec arg "--output") as [Eo|_].
      { intro H. apply IH in H; [|lia]. destruct H as [H1 H2].
        cbn [output_file create_backup_flag] in H1, H2. split.
        - right. destruct H1 as [H1|(k & p & Hk & Hp & Ho)].
          + exists 0%nat, next. cbn [nth_error].
            split; [f_equal; exact Eo|]. split; [reflexivity|exact H1].
          + exists (S (S k)), p. cbn [nth_error].
            split; [exact Hk|]. split; [exact Hp|exact Ho].
        - destruct H2 as [H2|[H2 Hin]]; [left; exact H2|].
          right. split; [exact H2|right; right; exact Hin]. }
      intro H. apply IH in H; [|simpl; lia].
      apply (options_from_cons o o arg); [reflexivity|reflexivity|exact H]. }
  apply (G (length args)). lia.
Qed.

Variable files : string -> option bytes.

(** X16. What [main] has done when it writes a file.  The first
    argument names a file that exists and in which the first stream header,
    at an offset [i] from 8 on, starts a stream that decompresses.  At least
    one modification was made, and the payload written has at least the
    length of the one read and at most four bytes more for each
    modification.  The file written is the bytes of the input before its
    size fields, then the compressed length and the length of that payload
    as little-endian 32-bit integers, then the compressed payload.  It is
    written to the input file or to the argument that follows an
    [--output]; a backup is made only when the input file is written, and
    it is made unless [--no-backup] or an [--output] with its file is among
    the arguments. *)
Theorem main_saved (argv : list string) (backup : bool) (path : string)
    (content : bytes) (results : list bool) :
  main float_of_str int_of_str float_of_int int_of_float compress decompress
       files argv = Saved backup path content results ->
  exists (save_file : string) (data : bytes) (i : nat) (original payload : bytes),
    nth_error argv 1 = Some save_file /\
    files save_file = Some data /\
    first_signature data i /\ (8 <= i)%nat /\
    decompress (firstn (Z.to_nat (u32_at data (i - 8))) (skipn i data))
    = Ok original /\
    results <> [] /\
    len original <= len payload <= len original + 4 * Z.of_nat (length results) /\
    len payload < 2 ^ 32 /\ len (compress payload) < 2 ^ 32 /\
    content = firstn (i - 8) data ++ le_bytes 4 (len (compress payload))
                ++ le_bytes 4 (len payload) ++ compress payload /\
    (path = save_file \/
     exists k, nth_error argv (2 + k) = Some "--output"%string /\
               nth_error argv (3 + k) = Some path) /\
    (backup = true -> path = save_file) /\
    (backup = false ->
     In "--no-backup"%string (skipn 2 argv) \/
     exists k, nth_error argv (2 + k) = Some "--output"%string /\
               nth_error argv (3 + k) = Some path).
Proof.
  intro H. unfold main in H.
  destruct argv as [|prog [|save_file args]]; try discriminate H.
  destruct (files save_file) as [data|] eqn:F; [|discriminate H].
  destruct (load decompress data) as [[ed|]|e] eqn:L; try discriminate H.
  destruct (parse_args float_of_str int_of_str _ args) as [| |o] eqn:P.
  { destruct (display_info _); discriminate H. }
  { discriminate H. }
  destruct (modifications o) as [|m ms] eqn:M; [discriminate H|].
  destruct (apply_modifications float_of_int int_of_float _ _)
    as [[rs payload]|] eqn:A; [|discriminate H].
  destruct (save compress (with_payload ed payload)) as [new_file|e] eqn:S;
    [|discriminate H].
  injection H as Eb Ep Ec Er. subst new_file rs.
  destruct (load_ok_inv decompress data ed L) as (i & Fi & Hi & E).
  rewrite (load_at_late decompress data i (proj1 (proj2 Fi)) Hi) in E.
  destruct (decompress _) as [original|e] eqn:D; [|discriminate E].
  cbn [bind] in E. apply Ok_inj in E. subst ed.
  cbn [decompressed] in A.
  unfold save, with_payload in S. cbn [decompressed save_data header] in S.
  destruct (pack_I (len (compress payload))) as [cs|e] eqn:P1; [|discriminate S].
  cbn [bind] in S.
  destruct (pack_I (len payload)) as [us|e] eqn:P2; [|discriminate S].
  cbn [bind] in S. apply Ok_inj in S.
  apply pack_I_inv in P1. apply pack_I_inv in P2.
  destruct P1 as [R1 ->]. destruct P2 as [R2 ->].
  pose proof (apply_modifications_length _ _ _ _ _ _ A) as Ln.
  pose proof (apply_modifications_grows _ _ _ _ _ _ A) as Lg.
  rewrite <- Ln in Lg. cbn [length] in Ln.
  pose proof (parse_args_options _ _ _ P) as [O1 O2].
  cbn [output_file create_backup_flag] in O1, O2.
  exists save_file, data, i, original, payload. cbn [nth_error skipn Nat.add].
  split; [reflexivity|]. split; [exact F|]. split; [exact Fi|].
  split; [exact Hi|]. split; [exact D|].
  split; [intro N; rewrite N in Ln; discriminate Ln|].
  split; [exact Lg|]. split; [lia|]. split; [lia|].
  split; [symmetry; exact S|].
  destruct O1 as [O1|(k & p & Hk & Hp & Ho)].
  - rewrite O1 in Eb, Ep. split; [left; symmetry; exact Ep|].
    split; [intros _; symmetry; exact Ep|].
    intro B. rewrite B, andb_true_r in Eb.
    destruct O2 as [O2|[_ Hin]]; [congruence|]. left. exact Hin.
  - rewrite Ho in Eb, Ep. rewrite andb_false_r in Eb. subst p.
    split; [right; exists k; split; assumption|].
    split; [intro B; congruence|].
    intros _. right. exists k. split; assumption.
Qed.

End MainProperties.

(** An instance of [main_saved] with the stored codec: the pistol of a
    small container is set to 7 rounds and the result goes to another
    file. *)
Lemma main_saved_witness :
  let input := [x53; x48; x32] ++ [x0d; x00; x00; x00] ++ [x0b; x00; x00; x00]
                 ++ x78 :: xda :: lit "Pistol" ++ [x00; x0c; x00; x00; x00] in
  let argv := ["sh2_save_editor.py"; "a.sav"; "--pistol"; "7";
               "--output"; "b.sav"]%string in
  let content := [x53; x48; x32] ++ [x0d; x00; x00; x00] ++ [x0b; x00; x00; x00]
                   ++ x78 :: xda :: lit "Pistol" ++ [x00; x07; x00; x00; x00] in
  exists (save_file : string) (data : bytes) (i : nat) (original payload : bytes),
    nth_error argv 1 = Some save_file /\
    one_file "a.sav" input save_file = Some data /\
    first_signature data i /\ (8 <= i)%nat /\
    stored_decompress (firstn (Z.to_nat (u32_at data (i - 8))) (skipn i data))
    = Ok original /\
    [true] <> [] /\
    len original <= len payload <= len original + 4 * Z.of_nat (length [true]) /\
    len payload < 2 ^ 32 /\ len (stored_compress payload) < 2 ^ 32 /\
    content = firstn (i - 8) data ++ le_bytes 4 (len (stored_compress payload))
                ++ le_bytes 4 (len payload) ++ stored_compress payload /\
    ("b.sav"%string = save_file \/
     exists k, nth_error argv (2 + k) = Some "--output"%string /\
               nth_error argv (3 + k) = Some "b.sav"%string) /\
    (false = true -> "b.sav"%string = save_file) /\
    (false = false ->
     In "--no-backup"%string (skipn 2 argv) \/
     exists k, nth_error argv (2 + k) = Some "--output"%string /\
               nth_error argv (3 + k) = Some "b.sav"%string).
Proof.
  cbv zeta.
  apply (main_saved digits_float digits_int small_float trunc_float
           stored_compress stored_decompress
           (one_file "a.sav"
              ([x53; x48; x32] ++ [x0d; x00; x00; x00] ++ [x0b; x00; x00; x00]
                 ++ x78 :: xda :: lit "Pistol" ++ [x00; x0c; x00; x00; x00]))
           ["sh2_save_editor.py"; "a.sav"; "--pistol"; "7";
            "--output"; "b.sav"]%string
           false "b.sav"%string
           ([x53; x48; x32] ++ [x0d; x00; x00; x00] ++ [x0b; x00; x00; x00]
              ++ x78 :: xda :: lit "Pistol" ++ [x00; x07; x00; x00; x00])
           [true]).
  vm_compute. reflexivity.
Defined.
